(** * The HTTP tracing plugin of pm2-io-apm (src/census/plugins/http.ts)

    A shallow embedding of [HttpPlugin]: the ignore-rule matcher, the status
    classifier, the wrapper around outgoing requests, the header setter used
    for context propagation, the listeners that finish a span, and the
    wrapper around incoming requests.

    Stateful code is written in a state and error monad over a [World]: the
    tracer, the log of the calls made on collaborators, the options objects
    by address, and the registered listeners. Calls of the logger are left
    out. The tracer, [url.parse], [uuid.v4] and the regular expression
    engine belong to other packages: the tracer is modelled from the
    interface the plugin uses, the others are taken as parameters. *)

From stdpp Require Import gmap strings list pretty.
From Stdlib Require Import ZArith Lia Ascii.

Local Open Scope string_scope.
Local Open Scope Z_scope.
Local Open Scope list_scope.

(** ** JavaScript values the plugin inspects *)

(** A property typed [string | undefined] in TypeScript; [url.parse] fills
    the missing parts of a URL with [null]. *)
Inductive MaybeStr : Type :=
  | Undef
  | Null
  | Str (s : string).

(** The value of a header in an options object
    ([number | string | string[] | undefined]). *)
Inductive HeaderValue : Type :=
  | HUndef
  | HStr (s : string)
  | HNum (n : Z)
  | HArr (l : list string).

Module Js.

(** [if (v)], [v || d], [!!v] on a string-or-missing value. *)
Definition truthy (v : MaybeStr) : bool :=
  match v with
  | Str s => negb (String.eqb s "")
  | Undef | Null => false
  end.

(** [v || d] where [d] is a string. *)
Definition or_else (v : MaybeStr) (d : string) : string :=
  match v with
  | Str s => if String.eqb s "" then d else s
  | Undef | Null => d
  end.

(** A template literal [`${v}`]. *)
Definition template (v : MaybeStr) : string :=
  match v with
  | Undef => "undefined"
  | Null => "null"
  | Str s => s
  end.

(** Truthiness of a header value; arrays are objects, hence truthy. *)
Definition header_truthy (v : HeaderValue) : bool :=
  match v with
  | HUndef => false
  | HStr s => negb (String.eqb s "")
  | HNum n => negb (Z.eqb n 0)
  | HArr _ => true
  end.

(** [Array.prototype.join(sep)] on an array of strings. *)
Fixpoint join (sep : string) (l : list string) : string :=
  match l with
  | [] => ""
  | [s] => s
  | s :: rest => s +:+ sep +:+ join sep rest
  end.

(** [v.toString()] on a truthy header value. *)
Definition header_toString (v : HeaderValue) : string :=
  match v with
  | HUndef => "undefined"
  | HStr s => s
  | HNum n => pretty n
  | HArr l => join "," l
  end.

(** [String.prototype.toLowerCase] on the ASCII letters, the only letters
    of an HTTP method token and of the module names 'http' and 'https'. *)
Definition lower_ascii (c : Ascii.ascii) : Ascii.ascii :=
  let n := Ascii.nat_of_ascii c in
  if (Nat.leb 65 n && Nat.leb n 90)%bool
  then Ascii.ascii_of_nat (n + 32)%nat else c.

Fixpoint toLowerCase (s : string) : string :=
  match s with
  | EmptyString => EmptyString
  | String c rest => String (lower_ascii c) (toLowerCase rest)
  end.

End Js.

(** ** Canonical status codes *)

(** [enum TraceStatusCodes]. *)
Inductive TraceStatusCodes : Type :=
  | UNKNOWN
  | OK
  | INVALID_ARGUMENT
  | DEADLINE_EXCEEDED
  | NOT_FOUND
  | PERMISSION_DENIED
  | UNAUTHENTICATED
  | RESOURCE_EXHAUSTED
  | UNIMPLEMENTED
  | UNAVAILABLE.

(** The number each member of the enumeration stands for. *)
Definition status_number (c : TraceStatusCodes) : Z :=
  match c with
  | UNKNOWN => 2
  | OK => 0
  | INVALID_ARGUMENT => 3
  | DEADLINE_EXCEEDED => 4
  | NOT_FOUND => 5
  | PERMISSION_DENIED => 7
  | UNAUTHENTICATED => 16
  | RESOURCE_EXHAUSTED => 8
  | UNIMPLEMENTED => 12
  | UNAVAILABLE => 14
  end.

(** [HttpPlugin.convertTraceStatus], on integer status codes. *)
Definition convertTraceStatus (statusCode : Z) : TraceStatusCodes :=
  if ((statusCode <? 200) || (statusCode >? 504))%bool then UNKNOWN
  else if ((statusCode >=? 200) && (statusCode <? 400))%bool then OK
  else match statusCode with
       | 400 => INVALID_ARGUMENT
       | 504 => DEADLINE_EXCEEDED
       | 404 => NOT_FOUND
       | 403 => PERMISSION_DENIED
       | 401 => UNAUTHENTICATED
       | 429 => RESOURCE_EXHAUSTED
       | 501 => UNIMPLEMENTED
       | 503 => UNAVAILABLE
       | _ => UNKNOWN
       end.

(** The codes of the fixed table of the classifier. *)
Definition mapped_codes : list Z := [400; 401; 403; 404; 429; 501; 503; 504].

(** ** Errors and fallible steps *)

(** What a [throw] carries: the [TypeError] of the pattern matcher, or an
    error raised by the environment (a property getter, [url.parse]). *)
Inductive Exn : Type :=
  | TypeError (message : string)
  | Raised.

(** Reading a property or calling a library function: a value, or a raise. *)
Inductive Read (X : Type) : Type :=
  | Got (x : X)
  | Raises.
Arguments Got {X} x.
Arguments Raises {X}.

(** The outcome of a function call: [return x] or [throw e]. *)
Inductive Result (X : Type) : Type :=
  | Ret (x : X)
  | Throw (e : Exn).
Arguments Ret {X} x.
Arguments Throw {X} e.

(** ** Ignore rules *)

(** A [RegExp] object, through the only method the plugin calls. *)
Record RegExp : Type := { regexp_source : string; regexp_test : string -> bool }.

(** A configured rule that is neither a string, nor a [RegExp], nor a
    function. *)
Inductive OtherValue : Type :=
  | ONumber (n : Z)
  | OBoolean (b : bool)
  | ONull
  | OUndefined
  | OObject.

(** [IgnoreMatcher<T>], with the values JavaScript lets a configuration hold
    besides the three declared kinds. *)
Inductive IgnoreMatcher (T : Type) : Type :=
  | PString (s : string)
  | PRegExp (re : RegExp)
  | PFunction (f : MaybeStr -> T -> bool)
  | POther (v : OtherValue).
Arguments PString {T} s.
Arguments PRegExp {T} re.
Arguments PFunction {T} f.
Arguments POther {T} v.

(** [typeof pattern === 'string' || pattern instanceof RegExp ||
    typeof pattern === 'function']. *)
Definition recognized {T} (pattern : IgnoreMatcher T) : bool :=
  match pattern with
  | POther _ => false
  | _ => true
  end.

(** [HttpPlugin.isSatisfyPattern]. The URL is a string for outgoing
    requests; for incoming ones it is the [pathname] of the parsed URL, which
    [url.parse] leaves [null] when the URL has no path. [RegExp.test]
    converts its argument to a string. *)
Definition isSatisfyPattern {T} (url : MaybeStr) (request : T)
    (pattern : IgnoreMatcher T) : Result bool :=
  match pattern with
  | PString s => Ret (match url with Str u => String.eqb s u | _ => false end)
  | PRegExp re => Ret (regexp_test re (Js.template url))
  | PFunction f => Ret (f url request)
  | POther _ => Throw (TypeError "Pattern is in unsupported datatype")
  end.

(** ** Spans and the tracer *)

Inductive SpanKind : Type := CLIENT | SERVER.

(** A span as the tracer hands it out. A root span has no parent. *)
Record Span : Type := {
  span_name : MaybeStr;
  span_kind : SpanKind;
  traceId : nat;
  spanId : nat;
  parentSpanId : option nat
}.

Definition is_root (s : Span) : bool :=
  match parentSpanId s with None => true | Some _ => false end.

(** The identifiers a span carries across the wire. *)
Record SpanContext : Type := { ctx_traceId : nat; ctx_spanId : nat }.

Definition spanContext (s : Span) : SpanContext :=
  {| ctx_traceId := traceId s; ctx_spanId := spanId s |}.

(** A propagation format: the headers [inject] hands to the setter for a
    span context, and the context [extract] reads through a header getter. *)
Record Propagation : Type := {
  prop_inject : SpanContext -> list (string * string);
  prop_extract : (string -> option string) -> option SpanContext
}.

(** The part of the tracer the plugin talks to: the current root span of
    the calling context, the spans started so far (oldest first), the
    supply of fresh identifiers, and the propagation format, if any. *)
Record Tracer : Type := {
  currentRootSpan : option Span;
  started : list Span;
  next_id : nat;
  propagation : option Propagation
}.

(** ** Options objects, requests and messages *)

(** The address of an options object: the caller and the plugin hold
    references to the same object. *)
Definition loc : Type := nat.

(** A [ClientRequest] object, by identity. *)
Definition ClientRequest : Type := nat.

(** An options object ([RequestOptions], or the object [url.parse]
    returns). The five properties the wrapper reads inside its [try] block
    may be accessors that raise. *)
Record RequestOptions : Type := {
  headers : option (gmap string HeaderValue);
  pathname : Read MaybeStr;
  path : Read MaybeStr;
  method : Read MaybeStr;
  protocol : Read MaybeStr;
  host : Read MaybeStr;
  hostname : MaybeStr;
  __cloned : bool
}.

(** The object [url.parse] returns, by the properties the plugin reads. *)
Record Url : Type := {
  u_protocol : MaybeStr;
  u_host : MaybeStr;
  u_hostname : MaybeStr;
  u_pathname : MaybeStr;
  u_path : MaybeStr
}.

(** A parsed URL used as an options object ([options = parsedUrl]). *)
Definition options_of_url (u : Url) : RequestOptions :=
  {| headers := None;
     pathname := Got (u_pathname u);
     path := Got (u_path u);
     method := Got Undef;
     protocol := Got (u_protocol u);
     host := Got (u_host u);
     hostname := u_hostname u;
     __cloned := false |}.

(** The first argument of [http.request]: missing ([undefined], [null] or
    another falsy value that is not a string), a URL string, or a reference
    to an options object. *)
Inductive OutgoingArg : Type :=
  | ArgMissing
  | ArgString (s : string)
  | ArgObject (l : loc).

(** An [IncomingMessage]: the request a server receives, or the response a
    client receives. [middlewareStack] is the property stored under
    [kMiddlewareStack] by the express plugin. *)
Record IncomingMessage : Type := {
  im_id : nat;
  im_url : MaybeStr;
  im_headers : gmap string string;
  im_method : MaybeStr;
  im_statusCode : option Z;
  middlewareStack : option (list string)
}.

(** A [ServerResponse], by identity and status code. *)
Record ServerResponse : Type := { sr_id : nat; sr_statusCode : Z }.

(** An [Error] object. *)
Record Error : Type := { error_name : string; error_message : string }.

Inductive MessageEventType : Type := SENT | RECEIVED.

(** ** The world the plugin acts on *)

(** The objects handed to [tracer.wrapEmitter]. *)
Inductive Emitter : Type :=
  | ERequest (req : ClientRequest)
  | EMessage (id : nat)
  | EResponse (id : nat).

(** The calls the plugin makes on its collaborators, as they happen. *)
Inductive Effect : Type :=
  | CallOriginal (arg : OutgoingArg) (req : ClientRequest)
  | CallEmit (event : string)
  | CallOriginalEnd (res : nat)
  | EvalPattern (i : nat)
  | WrapEmitter (emitter : Emitter)
  | CloneOptions (from to : loc)
  | SetHeader (req : ClientRequest) (name value : string)
  | AddAttribute (span : nat) (key : string) (value : MaybeStr)
  | SetStatus (span : nat) (code : Z)
  | AddMessageEvent (span : nat) (type : MessageEventType) (id : string)
  | SpanEnd (span : nat).

(** The listeners the plugin registers, and the replaced [response.end]. *)
Inductive Listener : Type :=
  | OnResponse (req : ClientRequest) (span : Span) (options : loc)
  | OnRequestError (req : ClientRequest) (span : Span)
  | OnEnd (response : IncomingMessage) (span : Span) (options : loc)
  | OnResponseError (response : IncomingMessage) (span : Span)
  | WrappedEnd (res : nat) (request : IncomingMessage) (span : Span).

Record World : Type := {
  tracer : Tracer;
  log : list Effect;
  store : gmap loc RequestOptions;
  listeners : list Listener;
  next_request : ClientRequest;
  uuids : nat
}.

Definition with_tracer (t : Tracer) (w : World) : World :=
  {| tracer := t; log := log w; store := store w; listeners := listeners w;
     next_request := next_request w; uuids := uuids w |}.

Definition with_log (l : list Effect) (w : World) : World :=
  {| tracer := tracer w; log := l; store := store w; listeners := listeners w;
     next_request := next_request w; uuids := uuids w |}.

Definition with_store (s : gmap loc RequestOptions) (w : World) : World :=
  {| tracer := tracer w; log := log w; store := s; listeners := listeners w;
     next_request := next_request w; uuids := uuids w |}.

Definition with_listeners (ls : list Listener) (w : World) : World :=
  {| tracer := tracer w; log := log w; store := store w; listeners := ls;
     next_request := next_request w; uuids := uuids w |}.

(** ** A state and error monad over the world *)

Definition M (X : Type) : Type := World -> Result X * World.

Definition ret {X} (x : X) : M X := fun w => (Ret x, w).

Definition throw {X} (e : Exn) : M X := fun w => (Throw e, w).

Definition bind {X Y} (c : M X) (k : X -> M Y) : M Y :=
  fun w =>
    match c w with
    | (Ret x, w') => k x w'
    | (Throw e, w') => (Throw e, w')
    end.

Notation "x <- c ;; k" := (bind c (fun x => k))
  (at level 100, c at next level, k at level 200, right associativity).
Notation "c ;; k" := (bind c (fun _ => k))
  (at level 100, k at level 200, right associativity).

(** [try { c } catch (e) { h }]. *)
Definition try_catch {X} (c : M X) (h : M X) : M X :=
  fun w =>
    match c w with
    | (Ret x, w') => (Ret x, w')
    | (Throw _, w') => h w'
    end.

Definition lift {X} (r : Result X) : M X := fun w => (r, w).

(** A property read. *)
Definition read {X} (r : Read X) : M X :=
  match r with
  | Got x => ret x
  | Raises => throw Raised
  end.

Definition effect (e : Effect) : M unit :=
  fun w => (Ret tt, with_log (log w ++ [e]) w).

Definition get_tracer : M Tracer := fun w => (Ret (tracer w), w).

(** Dereferencing an options object. *)
Definition load (l : loc) : M RequestOptions :=
  fun w =>
    match store w !! l with
    | Some o => (Ret o, w)
    | None => (Throw Raised, w)
    end.

Definition save (l : loc) (o : RequestOptions) : M unit :=
  fun w => (Ret tt, with_store (<[l := o]> (store w)) w).

(** A new object: an address no object lives at. *)
Definition alloc (o : RequestOptions) : M loc :=
  fun w =>
    let l := fresh (dom (store w)) in
    (Ret l, with_store (<[l := o]> (store w)) w).

Definition register (l : Listener) : M unit :=
  fun w => (Ret tt, with_listeners (listeners w ++ [l]) w).

(** ** The tracer *)

Definition set_current (c : option Span) (t : Tracer) : Tracer :=
  {| currentRootSpan := c; started := started t; next_id := next_id t;
     propagation := propagation t |}.

Definition record_span (s : Span) (t : Tracer) : Tracer :=
  {| currentRootSpan := currentRootSpan t; started := started t ++ [s];
     next_id := S (next_id t); propagation := propagation t |}.

(** Modelled from the spec: [tracer.startChildSpan] of the external tracer.
    A child span is nested under the current root span and shares its trace
    identifier; without a current root span no span is made ([null]). *)
Definition startChildSpan (name : MaybeStr) (kind : SpanKind)
    : M (option Span) :=
  fun w =>
    let t := tracer w in
    match currentRootSpan t with
    | None => (Ret None, w)
    | Some root =>
        let s := {| span_name := name; span_kind := kind;
                    traceId := traceId root; spanId := next_id t;
                    parentSpanId := Some (spanId root) |} in
        (Ret (Some s), with_tracer (record_span s t) w)
    end.

(** Modelled from the spec: [tracer.startRootSpan] of the external tracer.
    It starts a root span, which continues the trace of [context] when one
    is given and opens a new trace otherwise, runs [fn] with that span as
    the current root span of the call chain, and returns what [fn] returns. *)
Definition startRootSpan {X} (name : MaybeStr) (kind : SpanKind)
    (context : option SpanContext) (fn : option Span -> M X) : M X :=
  fun w =>
    let t := tracer w in
    let root := {| span_name := name; span_kind := kind;
                   traceId := match context with
                              | Some c => ctx_traceId c
                              | None => next_id t
                              end;
                   spanId := next_id t; parentSpanId := None |} in
    let '(r, w') :=
      fn (Some root) (with_tracer (set_current (Some root) (record_span root t)) w) in
    (r, with_tracer (set_current (currentRootSpan t) (tracer w')) w').

(** ** Configuration and the pattern matcher *)

(** [HttpPluginConfig]; a missing list is [None], a missing flag [false]. *)
Record HttpPluginConfig : Type := {
  ignoreIncomingPaths : option (list (IgnoreMatcher IncomingMessage));
  ignoreOutgoingUrls : option (list (IgnoreMatcher ClientRequest));
  createSpanWithNet : bool
}.

Record HttpPlugin : Type := {
  moduleName : string;
  plugin_options : HttpPluginConfig
}.

(** The loop of [isIgnored], from the rule of index [i] on. *)
Fixpoint isIgnored_from {T} (i : nat) (url : MaybeStr) (request : T)
    (list : list (IgnoreMatcher T)) : M bool :=
  match list with
  | [] => ret false
  | pattern :: rest =>
      effect (EvalPattern i);;
      matched <- lift (isSatisfyPattern url request pattern);;
      if matched then ret true else isIgnored_from (S i) url request rest
  end.

(** [HttpPlugin.isIgnored]. *)
Definition isIgnored {T} (url : MaybeStr) (request : T)
    (list : option (list (IgnoreMatcher T))) : M bool :=
  match list with
  | None => ret false
  | Some l => isIgnored_from 0 url request l
  end.

(** ** Attribute names *)

Definition ATTRIBUTE_HTTP_HOST : string := "http.host".
Definition ATTRIBUTE_HTTP_METHOD : string := "http.method".
Definition ATTRIBUTE_HTTP_PATH : string := "http.path".
Definition ATTRIBUTE_HTTP_ROUTE : string := "http.route".
Definition ATTRIBUTE_HTTP_USER_AGENT : string := "http.user_agent".
Definition ATTRIBUTE_HTTP_STATUS_CODE : string := "http.status_code".
Definition ATTRIBUTE_HTTP_ERROR_NAME : string := "http.error_name".
Definition ATTRIBUTE_HTTP_ERROR_MESSAGE : string := "http.error_message".

(** [CanonicalCode.UNKNOWN] of the tracer library. *)
Definition CanonicalCode_UNKNOWN : Z := 2.

Definition addAttribute (span : Span) (key : string) (value : MaybeStr)
    : M unit :=
  effect (AddAttribute (spanId span) key value).

(** The reserved header of the plugin's own traffic. *)
Definition outgoing_marker : string := "x-opencensus-outgoing-request".

(** [headers[name]]: a missing key reads as [undefined]. *)
Definition header (h : gmap string HeaderValue) (name : string)
    : HeaderValue :=
  default HUndef (h !! name).

(** [HttpPlugin.hasExpectHeader]. *)
Definition hasExpectHeader (o : RequestOptions) : bool :=
  match headers o with
  | Some h => Js.header_truthy (header h "Expect")
  | None => false
  end.

Definition set_headers (h : option (gmap string HeaderValue))
    (o : RequestOptions) : RequestOptions :=
  {| headers := h; pathname := pathname o; path := path o;
     method := method o; protocol := protocol o; host := host o;
     hostname := hostname o; __cloned := __cloned o |}.

Definition set_cloned (b : bool) (o : RequestOptions) : RequestOptions :=
  {| headers := headers o; pathname := pathname o; path := path o;
     method := method o; protocol := protocol o; host := host o;
     hostname := hostname o; __cloned := b |}.

Definition is_got {X} (r : Read X) : bool :=
  match r with Got _ => true | Raises => false end.

(** Every property of the object can be read. *)
Definition readable (o : RequestOptions) : bool :=
  is_got (pathname o) && is_got (path o) && is_got (method o)
  && is_got (protocol o) && is_got (host o).

(** [Object.assign({}, options)]: the copy reads every property. *)
Definition Object_assign (o : RequestOptions) : M RequestOptions :=
  if readable o then ret o else throw Raised.

(** ** The header setter of [getMakeRequestTraceFunction] *)

(** [setter.setHeader(name, value)]. [options] is the variable of the
    enclosing function, which the setter may reassign: the result is the
    object the variable refers to afterwards. The test is
    [hasExpectHeader(options) && options.headers], whose second part holds
    whenever the first does. *)
Definition setHeader (request : ClientRequest) (options : loc)
    (name value : string) : M loc :=
  o <- load options;;
  if hasExpectHeader o then
    options' <- (if negb (__cloned o) then
                   copy <- Object_assign o;;
                   c <- alloc (set_cloned true (set_headers (headers copy) copy));;
                   effect (CloneOptions options c);;
                   ret c
                 else ret options);;
    o' <- load options';;
    match headers o' with
    | Some h =>
        save options' (set_headers (Some (<[name := HStr value]> h)) o');;
        ret options'
    | None => throw Raised
    end
  else
    effect (SetHeader request name value);;
    ret options.

(** [propagation.inject(setter, span.spanContext)]: one call of the setter
    for each header the propagation format writes. *)
Fixpoint inject (request : ClientRequest) (options : loc)
    (hs : list (string * string)) : M loc :=
  match hs with
  | [] => ret options
  | nv :: rest =>
      options' <- setHeader request options nv.1 nv.2;;
      inject request options' rest
  end.

(** The function [getMakeRequestTraceFunction] returns, applied to a span.
    The listeners it registers keep the object the variable [options]
    refers to once the headers are injected. *)
Definition makeRequestTrace (request : ClientRequest) (options : loc)
    (span : option Span) : M ClientRequest :=
  match span with
  | None => ret request
  | Some span =>
      t <- get_tracer;;
      options' <- match propagation t with
                  | Some format =>
                      inject request options
                        (prop_inject format (spanContext span))
                  | None => ret options
                  end;;
      register (OnResponse request span options');;
      register (OnRequestError request span);;
      ret request
  end.

(** ** Runtime services the plugin calls *)

(** [url_parse] is [url.parse], which may raise; [uuid_v4 n] is the n-th
    value [uuid.v4()] returns; [replace_port host] is
    the [host.replace] of the incoming wrapper, whose regular expression
    drops a colon followed by one to five digits; the regular expression
    engine runs it; [original_emit event] is what the patched [emit] of the
    server returns. *)
Record Runtime : Type := {
  url_parse : string -> Read Url;
  uuid_v4 : nat -> string;
  replace_port : string -> string;
  original_emit : string -> bool
}.

(** [s.split('-').join('')]. *)
Fixpoint remove_dashes (s : string) : string :=
  match s with
  | EmptyString => EmptyString
  | String c rest =>
      if Ascii.eqb c "-"%char then remove_dashes rest
      else String c (remove_dashes rest)
  end.

Section Plugin.

Context (rt : Runtime) (plugin : HttpPlugin).

(** [uuid.v4().split('-').join('')]. *)
Definition message_event_id : M string :=
  fun w =>
    (Ret (remove_dashes (uuid_v4 rt (uuids w))),
     {| tracer := tracer w; log := log w; store := store w;
        listeners := listeners w; next_request := next_request w;
        uuids := S (uuids w) |}).

(** *** Finishing the span of an outgoing request *)

(** The listener of ['end'] on the response. *)
Definition onEnd (response : IncomingMessage) (span : Span) (options : loc)
    : M unit :=
  let method := Js.or_else (im_method response) "GET" in
  o <- load options;;
  let userAgent :=
    match headers o with
    | Some h =>
        if Js.header_truthy (header h "user-agent")
        then header h "user-agent" else header h "User-Agent"
    | None => HUndef
    end in
  h <- read (host o);;
  (if Js.truthy h || Js.truthy (hostname o) then
     value <- (if Js.truthy h then read (host o) else ret (hostname o));;
     addAttribute span ATTRIBUTE_HTTP_HOST (Str (Js.template value))
   else ret tt);;
  addAttribute span ATTRIBUTE_HTTP_METHOD (Str method);;
  p <- read (path o);;
  addAttribute span ATTRIBUTE_HTTP_PATH (Str (Js.template p));;
  p' <- read (path o);;
  addAttribute span ATTRIBUTE_HTTP_ROUTE (Str (Js.template p'));;
  (if Js.header_truthy userAgent then
     addAttribute span ATTRIBUTE_HTTP_USER_AGENT
       (Str (Js.header_toString userAgent))
   else ret tt);;
  addAttribute span ATTRIBUTE_HTTP_STATUS_CODE
    (Str (match im_statusCode response with
          | Some c => pretty c
          | None => "undefined"
          end));;
  effect (SetStatus (spanId span)
            (status_number
               (convertTraceStatus (default 0 (im_statusCode response)))));;
  id <- message_event_id;;
  effect (AddMessageEvent (spanId span) SENT id);;
  effect (SpanEnd (spanId span)).

(** The listener of ['error'], on the response and on the request. *)
Definition onError (span : Span) (error : Error) : M unit :=
  addAttribute span ATTRIBUTE_HTTP_ERROR_NAME (Str (error_name error));;
  addAttribute span ATTRIBUTE_HTTP_ERROR_MESSAGE (Str (error_message error));;
  effect (SetStatus (spanId span) CanonicalCode_UNKNOWN);;
  effect (SpanEnd (spanId span)).

(** The listener of ['response'] on the request. *)
Definition onResponse (response : IncomingMessage) (span : Span)
    (options : loc) : M unit :=
  effect (WrapEmitter (EMessage (im_id response)));;
  register (OnEnd response span options);;
  register (OnResponseError response span).


(** *** Events on the request and on its response *)

Inductive Signal : Type :=
  | EmitResponse (req : ClientRequest) (response : IncomingMessage)
  | EmitRequestError (req : ClientRequest) (error : Error)
  | EmitEnd (response : nat)
  | EmitError (response : nat) (error : Error).

(** What a registered listener does when a signal is emitted. *)
Definition react (sig : Signal) (l : Listener) : M unit :=
  match sig, l with
  | EmitResponse r response, OnResponse r' span options =>
      if Nat.eqb r r' then onResponse response span options else ret tt
  | EmitRequestError r error, OnRequestError r' span =>
      if Nat.eqb r r' then onError span error else ret tt
  | EmitEnd id, OnEnd response span options =>
      if Nat.eqb id (im_id response) then onEnd response span options
      else ret tt
  | EmitError id error, OnResponseError response span =>
      if Nat.eqb id (im_id response) then onError span error else ret tt
  | _, _ => ret tt
  end.

Fixpoint run_listeners (sig : Signal) (ls : list Listener) : M unit :=
  match ls with
  | [] => ret tt
  | l :: rest => react sig l;; run_listeners sig rest
  end.

(** [emitter.emit]: the listeners registered when the signal is emitted
    run in the order of their registration. *)
Definition emit (sig : Signal) : M unit :=
  fun w => run_listeners sig (listeners w) w.

Fixpoint deliver (sigs : list Signal) : M unit :=
  match sigs with
  | [] => ret tt
  | sig :: rest => emit sig;; deliver rest
  end.

(** *** Outgoing requests *)

(** [original.apply(this, arguments)]: the wrapped [http.request] makes a
    new request object. *)
Definition call_original (arg : OutgoingArg) : M ClientRequest :=
  fun w =>
    let r := next_request w in
    (Ret r,
     {| tracer := tracer w; log := log w ++ [CallOriginal arg r];
        store := store w; listeners := listeners w;
        next_request := S r; uuids := uuids w |}).

(** [!options]. *)
Definition falsy_arg (arg : OutgoingArg) : bool :=
  match arg with
  | ArgMissing => true
  | ArgString s => String.eqb s ""
  | ArgObject _ => false
  end.

(** [options.headers && options.headers['x-opencensus-outgoing-request']]. *)
Definition has_marker (o : RequestOptions) : bool :=
  match headers o with
  | Some h => Js.header_truthy (header h outgoing_marker)
  | None => false
  end.

(** The body of the [try] block: the pathname, the method and the origin
    of an options object. *)
Definition readUrlFields (o : RequestOptions)
    : M (string * string * string) :=
  p <- read (pathname o);;
  let pathname0 := Js.or_else p "" in
  pathname1 <-
    (if Nat.eqb (String.length pathname0) 0 then
       pa <- read (path o);;
       match pa with
       | Str s =>
           parsed <- read (url_parse rt s);;
           ret (Js.or_else (u_pathname parsed) "")
       | _ => ret pathname0
       end
     else ret pathname0);;
  m <- read (method o);;
  pr <- read (protocol o);;
  h <- read (host o);;
  ret (pathname1, Js.or_else m "GET",
       Js.or_else pr "http:" +:+ "//" +:+ Js.template h).

(** ['HTTPS'] for the https module, ['HTTP'] otherwise. *)
Definition kind : string :=
  if String.eqb (moduleName plugin) "https" then "HTTPS" else "HTTP".

(** The span name of an outgoing request. *)
Definition outgoing_name (method : string) : string :=
  Js.toLowerCase kind +:+ "-"
    +:+ Js.toLowerCase (Js.or_else (Str method) "GET").

(** The first part of [outgoingRequest], up to the call of the original
    function: the options object, the pathname, the method and the origin
    of the request, or [None] where the wrapper returns early and only
    passes the call on. *)
Definition resolve_target (arg : OutgoingArg)
    : M (option (loc * string * string * string)) :=
  if falsy_arg arg then ret None
  else
    match arg with
    | ArgMissing => ret None
    | ArgString s =>
        parsedUrl <- read (url_parse rt s);;
        options <- alloc (options_of_url parsedUrl);;
        ret (Some (options, Js.or_else (u_pathname parsedUrl) "/", "GET",
                   Js.or_else (u_protocol parsedUrl) "http:" +:+ "//"
                     +:+ Js.template (u_host parsedUrl)))
    | ArgObject l =>
        o <- load l;;
        if has_marker o then ret None
        else
          try_catch
            (f <- readUrlFields o;;
             ret (Some (l, f.1.1, f.1.2, f.2)))
            (ret None)
    end.

(** The second part of [outgoingRequest], from the call of the original
    function on. *)
Definition trace_outgoing (arg : OutgoingArg) (options : loc)
    (pathname method origin : string) : M ClientRequest :=
  request <- call_original arg;;
  ignored <- isIgnored (Str (origin +:+ pathname)) request
               (ignoreOutgoingUrls (plugin_options plugin));;
  if ignored then ret request
  else
    effect (WrapEmitter (ERequest request));;
    let name := Str (outgoing_name method) in
    t <- get_tracer;;
    match currentRootSpan t with
    | None =>
        startRootSpan name CLIENT None (makeRequestTrace request options)
    | Some _ =>
        span <- startChildSpan name CLIENT;;
        makeRequestTrace request options span
    end.

(** The function [getPatchOutgoingRequestFunction] puts in place of
    [http.request]. *)
Definition outgoingRequest (arg : OutgoingArg) : M ClientRequest :=
  target <- resolve_target arg;;
  match target with
  | None => call_original arg
  | Some (options, pathname, method, origin) =>
      trace_outgoing arg options pathname method origin
  end.

(** *** Incoming requests *)

(** [HttpPlugin.createSpan]. *)
Definition createSpan {X} (name : MaybeStr) (kind : SpanKind)
    (context : option SpanContext) (fn : option Span -> M X) : M X :=
  let forceChildspan := createSpanWithNet (plugin_options plugin) in
  if forceChildspan then
    span <- startChildSpan name kind;;
    fn span
  else startRootSpan name kind context fn.

(** [path[0] === '/']. *)
Definition begins_with_slash (path : string) : bool :=
  match path with
  | String c _ => Ascii.eqb c "/"%char
  | EmptyString => false
  end.

(** The value of the route attribute of an incoming request, from the
    [path] of the parsed URL and the middleware stack of the request. *)
Definition route_of (requestUrl_path : MaybeStr)
    (stack : option (list string)) : string :=
  match stack with
  | Some middlewareStack =>
      Js.join ""
        (map (fun path =>
                if begins_with_slash path then path else "/" +:+ path)
           (List.filter (fun path => negb (String.eqb path "/"))
              middlewareStack))
  | None => Js.template requestUrl_path
  end.

(** [original.apply(this, arguments)] on the server's [emit]. *)
Definition call_emit (event : string) : M bool :=
  effect (CallEmit event);;
  ret (original_emit rt event).

Definition same_wrapper (res : nat) (l : Listener) : bool :=
  match l with
  | WrappedEnd res' _ _ => Nat.eqb res res'
  | _ => false
  end.

(** [response.end = originalEnd]. *)
Definition restore_end (res : nat) : M unit :=
  fun w =>
    (Ret tt,
     with_listeners
       (List.filter (fun l => negb (same_wrapper res l)) (listeners w)) w).

(** [a || b] on two header lookups. *)
Definition first_header (a b : option string) : MaybeStr :=
  match a with
  | Some s => if String.eqb s "" then from_option Str Undef b else Str s
  | None => from_option Str Undef b
  end.

(** The function [incomingRequest] puts in place of [response.end]. *)
Definition wrappedEnd (request : IncomingMessage)
    (response : ServerResponse) (rootSpan : Span) : M unit :=
  restore_end (sr_id response);;
  effect (CallOriginalEnd (sr_id response));;
  requestUrl <- read (url_parse rt (Js.or_else (im_url request) "localhost"));;
  let host := Js.or_else (from_option Str Undef (im_headers request !! "host"))
                "localhost" in
  let userAgent := first_header (im_headers request !! "user-agent")
                     (im_headers request !! "User-Agent") in
  addAttribute rootSpan ATTRIBUTE_HTTP_HOST (Str (replace_port rt host));;
  addAttribute rootSpan ATTRIBUTE_HTTP_METHOD
    (Str (Js.or_else (im_method request) "GET"));;
  addAttribute rootSpan ATTRIBUTE_HTTP_PATH
    (Str (Js.template (u_pathname requestUrl)));;
  addAttribute rootSpan ATTRIBUTE_HTTP_ROUTE
    (Str (route_of (u_path requestUrl) (middlewareStack request)));;
  addAttribute rootSpan ATTRIBUTE_HTTP_USER_AGENT userAgent;;
  addAttribute rootSpan ATTRIBUTE_HTTP_STATUS_CODE
    (Str (pretty (sr_statusCode response)));;
  effect (SetStatus (spanId rootSpan)
            (status_number (convertTraceStatus (sr_statusCode response))));;
  id <- message_event_id;;
  effect (AddMessageEvent (spanId rootSpan) RECEIVED id);;
  effect (SpanEnd (spanId rootSpan)).

(** The function [getPatchIncomingRequestFunction] puts in place of the
    server's [emit]. *)
Definition incomingRequest (event : string) (request : IncomingMessage)
    (response : ServerResponse) : M bool :=
  if negb (String.eqb event "request") then call_emit event
  else
    parsed <- match im_url request with
              | Str u => read (url_parse rt u)
              | _ => throw Raised
              end;;
    let path := u_pathname parsed in
    ignored <- isIgnored path request
                 (ignoreIncomingPaths (plugin_options plugin));;
    if ignored then call_emit event
    else
      t <- get_tracer;;
      let context :=
        match propagation t with
        | Some format => prop_extract format (fun name => im_headers request !! name)
        | None => None
        end in
      createSpan path SERVER context (fun rootSpan =>
        match rootSpan with
        | None => call_emit event
        | Some rootSpan =>
            effect (WrapEmitter (EMessage (im_id request)));;
            effect (WrapEmitter (EResponse (sr_id response)));;
            register (WrappedEnd (sr_id response) request rootSpan);;
            call_emit event
        end).

End Plugin.

(** ** Sample data *)

Module Sample.

(** A stand-in for [url.parse] on paths: the whole string is the path. *)
Definition parse (s : string) : Read Url :=
  if String.eqb s "%" then Raises
  else Got {| u_protocol := Null; u_host := Null; u_hostname := Null;
              u_pathname := Str s; u_path := Str s |}.

Definition rt : Runtime :=
  {| url_parse := parse;
     uuid_v4 := fun _ => "110ec58a-a0f2-4ac4-8393-c866d813b8d1";
     replace_port := fun host => host;
     original_emit := fun _ => true |}.

Definition config (net : bool) : HttpPluginConfig :=
  {| ignoreIncomingPaths := Some [PString "/ignored/string"];
     ignoreOutgoingUrls :=
       Some [PString "http://fake.service.io/ignored/string"];
     createSpanWithNet := net |}.

Definition plugin (net : bool) : HttpPlugin :=
  {| moduleName := "http"; plugin_options := config net |}.

Definition tracer0 : Tracer :=
  {| currentRootSpan := None; started := []; next_id := 0;
     propagation := None |}.

Definition options0 (h : option (gmap string HeaderValue))
    : RequestOptions :=
  {| headers := h; pathname := Got Undef; path := Got (Str "/test");
     method := Got Undef; protocol := Got Undef;
     host := Got (Str "fake.service.io"); hostname := Undef;
     __cloned := false |}.

Definition root0 : Span :=
  {| span_name := Str "TestRootSpan"; span_kind := SERVER; traceId := 7;
     spanId := 7; parentSpanId := None |}.

Definition tracer1 : Tracer :=
  {| currentRootSpan := Some root0; started := [root0]; next_id := 8;
     propagation := None |}.

Definition empty_marker : gmap string HeaderValue :=
  {[ outgoing_marker := HStr "" ]}.

Definition marker : gmap string HeaderValue :=
  {[ outgoing_marker := HNum 1 ]}.

Definition http_get : Span :=
  {| span_name := Str "http-get"; span_kind := CLIENT; traceId := 0;
     spanId := 0; parentSpanId := None |}.

Definition malformed_path : RequestOptions :=
  {| headers := None; pathname := Got Undef; path := Got (Str "%");
     method := Got Undef; protocol := Got Undef;
     host := Got (Str "fake.service.io"); hostname := Undef;
     __cloned := false |}.

Definition request0 (stack : option (list string)) : IncomingMessage :=
  {| im_id := 3; im_url := Str "/incoming/rootSpan/";
     im_headers := {[ "User-Agent" := "Android" ]}; im_method := Str "GET";
     im_statusCode := None; middlewareStack := stack |}.

Definition response0 : ServerResponse :=
  {| sr_id := 4; sr_statusCode := 200 |}.

Definition expect : gmap string HeaderValue :=
  {[ "Expect" := HStr "100-continue" ]}.

Definition empty_expect : gmap string HeaderValue :=
  {[ "Expect" := HStr "" ]}.

Definition not_found : IncomingMessage :=
  {| im_id := 9; im_url := Undef; im_headers := ∅; im_method := Undef;
     im_statusCode := Some 404; middlewareStack := None |}.

Definition reset : Error :=
  {| error_name := "Error"; error_message := "socket hang up" |}.

Definition world (t : Tracer) (o : RequestOptions) : World :=
  {| tracer := t; log := []; store := {[ 0%nat := o ]}; listeners := [];
     next_request := 0%nat; uuids := 0 |}.

End Sample.

(** ** Notions used in the statements *)

(** A rule matches: string rules by equality with the URL, regular
    expressions by [test], predicates by their result. *)
Definition rule_matches {T} (u : string) (r : T) (p : IgnoreMatcher T)
    : bool :=
  match p with
  | PString s => bool_decide (s = u)
  | PRegExp re => regexp_test re u
  | PFunction f => f (Str u) r
  | POther _ => false
  end.

(** The method of an outgoing request: the [method] property of an options
    object, and GET by default. *)
Definition requested_method (arg : OutgoingArg) (w : World) : string :=
  match arg with
  | ArgObject l =>
      match store w !! l with
      | Some o =>
          match method o with
          | Got m => Js.or_else m "GET"
          | Raises => "GET"
          end
      | None => "GET"
      end
  | _ => "GET"
  end.

(** The protocol of the patched module, in lower case. *)
Definition protocol_name (plugin : HttpPlugin) : string :=
  if String.eqb (moduleName plugin) "https" then "https" else "http".

(** The world once the original function has been called, and nothing else
    done. *)
Definition passed_on (arg : OutgoingArg) (w : World) : World :=
  {| tracer := tracer w;
     log := log w ++ [CallOriginal arg (next_request w)];
     store := store w; listeners := listeners w;
     next_request := S (next_request w); uuids := uuids w |}.

(** The route of a middleware stack, segment by segment: the segments other
    than "/" in list order, each with a leading "/". *)
Fixpoint route_segments (stack : list string) : string :=
  match stack with
  | [] => ""
  | segment :: rest =>
      if String.eqb segment "/" then route_segments rest
      else (if begins_with_slash segment then segment else "/" +:+ segment)
             +:+ route_segments rest
  end.

(** The values written to an attribute of a span, oldest first. *)
Fixpoint attribute_writes (span : nat) (key : string) (l : list Effect)
    : list MaybeStr :=
  match l with
  | [] => []
  | AddAttribute s k v :: rest =>
      if Nat.eqb s span && String.eqb k key
      then v :: attribute_writes span key rest
      else attribute_writes span key rest
  | _ :: rest => attribute_writes span key rest
  end.

(** The attributes written to a span, oldest first. *)
Fixpoint attribute_keys (span : nat) (l : list Effect) : list string :=
  match l with
  | [] => []
  | AddAttribute s k _ :: rest =>
      if Nat.eqb s span then k :: attribute_keys span rest
      else attribute_keys span rest
  | _ :: rest => attribute_keys span rest
  end.

(** How many times [end()] was called on a span. *)
Fixpoint ends (span : nat) (l : list Effect) : nat :=
  match l with
  | [] => 0%nat
  | SpanEnd s :: rest =>
      if Nat.eqb s span then S (ends span rest) else ends span rest
  | _ :: rest => ends span rest
  end.

(** The headers of an options object once the setter has written [ws] into
    them, oldest write first. *)
Definition written (h : gmap string HeaderValue) (ws : list (string * string))
    : gmap string HeaderValue :=
  foldl (fun acc nv => <[nv.1 := HStr nv.2]> acc) h ws.

(** A write that does not blank the Expect header. *)
Definition keeps_expect (nv : string * string) : Prop :=
  nv.1 = "Expect" -> nv.2 <> "".

(** A terminal signal of an outgoing request: ['end'] or ['error'] on its
    response, or ['error'] on the request itself. *)
Definition terminal (req : ClientRequest) (response : IncomingMessage)
    (sig : Signal) : bool :=
  match sig with
  | EmitEnd id => Nat.eqb id (im_id response)
  | EmitError id _ => Nat.eqb id (im_id response)
  | EmitRequestError r _ => Nat.eqb r req
  | EmitResponse _ _ => false
  end.

(** [frame f c]: running [c] does not change the part [f] of the world,
    whether it returns or throws. *)
Definition frame {A X} (f : World -> A) (c : M X) : Prop :=
  forall w, f (c w).2 = f w.

(** What running a listener does to the world: it appends the effects [new]
    to the log, returns, and leaves the listeners and the options objects
    alone. *)
Definition appends (c : M unit) (w : World) (new : list Effect) : Prop :=
  (c w).1 = Ret tt
  /\ log (c w).2 = log w ++ new
  /\ listeners (c w).2 = listeners w
  /\ store (c w).2 = store w.

(** A listener that ends the span once and writes no attribute twice. *)
Definition finishes_once (span : Span) (c : M unit) (w : World) : Prop :=
  exists new,
    appends c w new
    /\ ends (spanId span) new = 1%nat
    /\ NoDup (attribute_keys (spanId span) new).

(** The listeners [makeRequestTrace] registers for a request, and those in
    place once the response has been received. *)
Definition armed_listeners (req : ClientRequest) (span : Span) (l : loc)
    : list Listener :=
  [OnResponse req span l; OnRequestError req span].

Definition responded_listeners (req : ClientRequest) (span : Span) (l : loc)
    (response : IncomingMessage) : list Listener :=
  armed_listeners req span l
    ++ [OnEnd response span l; OnResponseError response span].

(** ** Further notions *)

(** A rule settles the question for a URL: it matches, or it raises. *)
Definition settles {T} (url : MaybeStr) (request : T) (p : IgnoreMatcher T)
    : bool :=
  match isSatisfyPattern url request p with
  | Ret false => false
  | _ => true
  end.

(** What [isIgnored] answers when the rule [p] is the first to settle the
    question. *)
Definition verdict {T} (url : MaybeStr) (request : T) (p : IgnoreMatcher T)
    : Result bool :=
  match isSatisfyPattern url request p with
  | Ret _ => Ret true
  | Throw e => Throw e
  end.

(** The calls of the original [http.request] in a log, oldest first: the
    argument passed and the request returned. *)
Definition original_call (e : Effect) : option (OutgoingArg * ClientRequest) :=
  match e with
  | CallOriginal arg req => Some (arg, req)
  | _ => None
  end.

Definition original_calls (l : list Effect)
    : list (OutgoingArg * ClientRequest) :=
  omap original_call l.

(** The codes a log sets as status of a span, oldest first. *)
Fixpoint statuses (span : nat) (l : list Effect) : list Z :=
  match l with
  | [] => []
  | SetStatus s code :: rest =>
      if Nat.eqb s span then code :: statuses span rest
      else statuses span rest
  | _ :: rest => statuses span rest
  end.

(** The status a terminal signal gives the span of an outgoing request: the
    one the classifier gives for the status code of the response on 'end',
    UNKNOWN on an error. *)
Definition signal_status (response : IncomingMessage) (sig : Signal) : Z :=
  match sig with
  | EmitEnd _ =>
      status_number (convertTraceStatus (default 0 (im_statusCode response)))
  | _ => CanonicalCode_UNKNOWN
  end.

(** Running [c] returns and appends to the log effects that satisfy [P],
    leaving the listeners and the options objects alone. *)
Definition appends_some (P : list Effect -> Prop) (c : M unit) (w : World)
    : Prop :=
  exists new, appends c w new /\ P new.

(** ** More sample data *)

Module Fixture.

(** A propagation format with two headers. *)
Definition b3 : Propagation :=
  {| prop_inject := fun context =>
       [("x-b3-traceid", pretty (ctx_traceId context));
        ("x-b3-spanid", pretty (ctx_spanId context))];
     prop_extract := fun getter =>
       match getter "x-b3-traceid" with
       | Some _ => Some {| ctx_traceId := 42; ctx_spanId := 1 |}
       | None => None
       end |}.

Definition tracer_b3 : Tracer :=
  {| currentRootSpan := None; started := []; next_id := 0;
     propagation := Some b3 |}.

Definition ignored_options : RequestOptions :=
  {| headers := None; pathname := Got Undef;
     path := Got (Str "/ignored/string"); method := Got Undef;
     protocol := Got Undef; host := Got (Str "fake.service.io");
     hostname := Undef; __cloned := false |}.

Definition plugin_with (rules : list (IgnoreMatcher ClientRequest))
    : HttpPlugin :=
  {| moduleName := "http";
     plugin_options :=
       {| ignoreIncomingPaths := None; ignoreOutgoingUrls := Some rules;
          createSpanWithNet := false |} |}.

Definition is_test_url (url : MaybeStr) (request : ClientRequest) : bool :=
  match url with
  | Str s => String.eqb s "http://fake.service.io/test"
  | _ => false
  end.

Definition malformed_request : IncomingMessage :=
  {| im_id := 3; im_url := Str "%"; im_headers := ∅; im_method := Str "GET";
     im_statusCode := None; middlewareStack := None |}.

Definition get_span : Span :=
  {| span_name := Str "http-get"; span_kind := CLIENT; traceId := 0;
     spanId := 0; parentSpanId := None |}.

End Fixture.

(** The events handed to the original [emit] of the server, oldest first. *)
Fixpoint emitted (l : list Effect) : list string :=
  match l with
  | [] => []
  | CallEmit event :: rest => event :: emitted rest
  | _ :: rest => emitted rest
  end.

(** The headers set on live requests, oldest first. *)
Fixpoint live_headers (l : list Effect)
    : list (ClientRequest * string * string) :=
  match l with
  | [] => []
  | SetHeader req name value :: rest => (req, name, value) :: live_headers rest
  | _ :: rest => live_headers rest
  end.

(** * Properties *)

(** ** The status classifier *)

Lemma convertTraceStatus_unmapped (c : Z) :
  400 <= c <= 504 -> c ∉ mapped_codes -> convertTraceStatus c = UNKNOWN.
Proof.
  intros Hc Hnot. unfold convertTraceStatus.
  destruct ((c <? 200) || (c >? 504))%bool eqn:E1; [reflexivity|].
  destruct ((c >=? 200) && (c <? 400))%bool eqn:E2; [lia|].
  clear Hc E1 E2.
  destruct c as [|p|p]; try reflexivity.
  repeat (destruct p as [p|p|]; try reflexivity);
    exfalso; apply Hnot; unfold mapped_codes; set_solver.
Qed.

(** C3: the status classifier is total on integer codes; it answers OK on
    [200, 400), follows the fixed table on the eight mapped codes, and
    answers UNKNOWN below 200, above 504 and on every other code. *)
Theorem convertTraceStatus_table (c : Z) :
  (200 <= c < 400 -> convertTraceStatus c = OK) /\
  (map convertTraceStatus mapped_codes =
     [INVALID_ARGUMENT; UNAUTHENTICATED; PERMISSION_DENIED; NOT_FOUND;
      RESOURCE_EXHAUSTED; UNIMPLEMENTED; UNAVAILABLE; DEADLINE_EXCEEDED]) /\
  (c < 200 \/ c > 504 -> convertTraceStatus c = UNKNOWN) /\
  (200 <= c <= 504 -> ~ (200 <= c < 400) -> c ∉ mapped_codes ->
     convertTraceStatus c = UNKNOWN).
Proof.
  repeat split.
  - intros Hc. unfold convertTraceStatus.
    destruct ((c <? 200) || (c >? 504))%bool eqn:E1; [lia|].
    destruct ((c >=? 200) && (c <? 400))%bool eqn:E2; [reflexivity|lia].
  - intros Hc. unfold convertTraceStatus.
    destruct ((c <? 200) || (c >? 504))%bool eqn:E1; [reflexivity|lia].
  - intros Hc Hlow Hnot. apply convertTraceStatus_unmapped; [lia|assumption].
Qed.

Lemma convertTraceStatus_table_witness :
  convertTraceStatus 204 = OK /\ convertTraceStatus 99 = UNKNOWN /\
  convertTraceStatus 500 = UNKNOWN.
Proof.
  destruct (convertTraceStatus_table 204) as (H204 & _).
  destruct (convertTraceStatus_table 99) as (_ & _ & H99 & _).
  destruct (convertTraceStatus_table 500) as (_ & _ & _ & H500).
  split; [apply H204; lia|].
  split; [apply H99; lia|].
  apply H500; [lia|lia|].
  unfold mapped_codes. intros H. repeat (apply elem_of_cons in H as [H|H]; [lia|]).
  inversion H.
Defined.

(** ** The world, one field at a time *)

Lemma with_log_same (w : World) : with_log (log w) w = w.
Proof. destruct w; reflexivity. Qed.

Lemma with_log_twice (l1 l2 : list Effect) (w : World) :
  with_log l2 (with_log l1 w) = with_log l2 w.
Proof. reflexivity. Qed.

Lemma effect_run (e : Effect) (w : World) :
  effect e w = (Ret tt, with_log (log w ++ [e]) w).
Proof. reflexivity. Qed.

(** ** The pattern matcher *)

Lemma isSatisfyPattern_recognized {T} (u : string) (r : T)
    (p : IgnoreMatcher T) :
  recognized p = true -> isSatisfyPattern (Str u) r p = Ret (rule_matches u r p).
Proof.
  destruct p as [s|re|f|v]; simpl; try reflexivity; try discriminate.
  intros _. f_equal. destruct (String.eqb_spec s u) as [->|Hne].
  - symmetry. by apply bool_decide_eq_true.
  - symmetry. by apply bool_decide_eq_false.
Qed.

Lemma isIgnored_from_find {T} (u : string) (r : T) (L : list (IgnoreMatcher T)) :
  forallb recognized L = true ->
  forall (i : nat) (w : World),
    isIgnored_from i (Str u) r L w =
      match list_find (fun p => rule_matches u r p = true) L with
      | Some (k, _) =>
          (Ret true, with_log (log w ++ (EvalPattern <$> seq i (S k))) w)
      | None =>
          (Ret false, with_log (log w ++ (EvalPattern <$> seq i (length L))) w)
      end.
Proof.
  induction L as [|p L IH]; intros Hrec i w.
  - simpl. unfold ret. by rewrite app_nil_r, with_log_same.
  - simpl in Hrec. apply andb_prop in Hrec as [Hp HL].
    cbn [isIgnored_from list_find]. unfold bind at 1. rewrite effect_run.
    unfold bind at 1, lift. rewrite (isSatisfyPattern_recognized u r p Hp).
    destruct (decide (rule_matches u r p = true)) as [Hm|Hm].
    + rewrite Hm. reflexivity.
    + apply not_true_is_false in Hm. rewrite Hm, (IH HL).
      destruct (list_find _ L) as [[k x]|]; simpl;
        rewrite <- app_assoc; reflexivity.
Qed.

(** C4: without a list, or with an empty one, nothing is ignored and no rule
    is evaluated; with a list of string, regular-expression and predicate
    rules the answer is true exactly when some rule matches, and the rules
    evaluated are those up to the first matching one, in list order. *)
Theorem isIgnored_first_match {T} (u : string) (r : T)
    (L : list (IgnoreMatcher T)) (w : World) :
  forallb recognized L = true ->
  isIgnored (Str u) r None w = (Ret false, w) /\
  isIgnored (Str u) r (Some []) w = (Ret false, w) /\
  ((isIgnored (Str u) r (Some L) w).1 = Ret true <->
     exists p, p ∈ L /\ rule_matches u r p = true) /\
  match list_find (fun p => rule_matches u r p = true) L with
  | Some (k, _) =>
      isIgnored (Str u) r (Some L) w =
        (Ret true, with_log (log w ++ (EvalPattern <$> seq 0 (S k))) w) /\
      (forall j q, L !! j = Some q -> (j < k)%nat -> rule_matches u r q = false)
  | None =>
      isIgnored (Str u) r (Some L) w =
        (Ret false, with_log (log w ++ (EvalPattern <$> seq 0 (length L))) w)
  end.
Proof.
  intros Hrec. split; [reflexivity|]. split; [reflexivity|].
  unfold isIgnored. rewrite (isIgnored_from_find u r L Hrec 0 w).
  destruct (list_find _ L) as [[k x]|] eqn:Hfind.
  - apply list_find_Some in Hfind as (Hk & Hx & Hfirst).
    split; [split; [|reflexivity]|split; [reflexivity|]].
    + intros _. exists x. split; [|assumption]. by eapply list_elem_of_lookup_2.
    + intros j q Hj Hlt. apply not_true_is_false. by eapply Hfirst.
  - split; [|reflexivity]. split; [discriminate|].
    intros (p & Hin & Hp). apply list_find_None in Hfind.
    rewrite Forall_forall in Hfind. by destruct (Hfind p Hin).
Qed.

Lemma isIgnored_first_match_witness :
  isIgnored (Str "/ignored/function") tt
    (Some [PString "/ignored/string";
           PFunction (fun url _ =>
                        match url with
                        | Str s => String.eqb s "/ignored/function"
                        | _ => false
                        end);
           PRegExp {| regexp_source := "^/ignored"; regexp_test := fun _ => true |}])
    (Sample.world Sample.tracer0 (Sample.options0 None))
  = (Ret true,
     with_log [EvalPattern 0; EvalPattern 1]
       (Sample.world Sample.tracer0 (Sample.options0 None))).
Proof.
  pose proof (isIgnored_first_match "/ignored/function" tt
    [PString "/ignored/string";
     PFunction (fun url _ =>
                  match url with
                  | Str s => String.eqb s "/ignored/function"
                  | _ => false
                  end);
     PRegExp {| regexp_source := "^/ignored"; regexp_test := fun _ => true |}]
    (Sample.world Sample.tracer0 (Sample.options0 None)) eq_refl)
    as (_ & _ & _ & H).
  apply H.
Defined.

(** C7: a rule of no recognized kind makes the pattern evaluation raise a
    TypeError, and [isIgnored] raises it too once the rules before it have
    been tried without a match: it returns no boolean. *)
Theorem isIgnored_unsupported_rule {T} (u : MaybeStr) (r : T) (v : OtherValue)
    (before after : list (IgnoreMatcher T)) (w : World) :
  Forall (fun q => isSatisfyPattern u r q = Ret false) before ->
  isSatisfyPattern u r (POther v)
    = Throw (TypeError "Pattern is in unsupported datatype") /\
  isIgnored u r (Some (before ++ POther v :: after)%list) w
    = (Throw (TypeError "Pattern is in unsupported datatype"),
       with_log (log w ++ (EvalPattern <$> seq 0 (S (List.length before)))) w).
Proof.
  intros Hbefore. split; [reflexivity|].
  unfold isIgnored. generalize 0%nat as i. revert w.
  induction Hbefore as [|q before Hq Hbefore IH]; intros w i.
  - reflexivity.
  - cbn [app isIgnored_from]. unfold bind at 1. rewrite effect_run.
    unfold bind at 1, lift. rewrite Hq, IH. simpl.
    rewrite <- app_assoc. reflexivity.
Qed.

Lemma isIgnored_unsupported_rule_witness :
  isIgnored (Str "/incoming") tt
    (Some [PString "/ignored/string"; POther (ONumber 42); PString "/incoming"])
    (Sample.world Sample.tracer0 (Sample.options0 None))
  = (Throw (TypeError "Pattern is in unsupported datatype"),
     with_log [EvalPattern 0; EvalPattern 1]
       (Sample.world Sample.tracer0 (Sample.options0 None))).
Proof.
  apply (isIgnored_unsupported_rule (Str "/incoming") tt (ONumber 42)
           [PString "/ignored/string"] [PString "/incoming"]).
  repeat constructor.
Defined.

(** ** Steps that leave a part of the world alone *)

Lemma frame_ret {A X} (f : World -> A) (x : X) : frame f (ret x).
Proof. intros w. reflexivity. Qed.

Lemma frame_throw {A X} (f : World -> A) (e : Exn) : frame f (@throw X e).
Proof. intros w. reflexivity. Qed.

Lemma frame_bind {A X Y} (f : World -> A) (c : M X) (k : X -> M Y) :
  frame f c -> (forall x, frame f (k x)) -> frame f (bind c k).
Proof.
  intros Hc Hk w. unfold bind. specialize (Hc w).
  destruct (c w) as [[x|e] w1]; simpl in *.
  - rewrite Hk. exact Hc.
  - exact Hc.
Qed.

Lemma frame_try_catch {A X} (f : World -> A) (c h : M X) :
  frame f c -> frame f h -> frame f (try_catch c h).
Proof.
  intros Hc Hh w. unfold try_catch. specialize (Hc w).
  destruct (c w) as [[x|e] w1]; simpl in *.
  - exact Hc.
  - rewrite Hh. exact Hc.
Qed.

Lemma frame_lift {A X} (f : World -> A) (r : Result X) : frame f (lift r).
Proof. intros w. reflexivity. Qed.

Lemma frame_read {A X} (f : World -> A) (r : Read X) : frame f (read r).
Proof. intros w. destruct r; reflexivity. Qed.

Lemma frame_load {A} (f : World -> A) (l : loc) : frame f (load l).
Proof. intros w. unfold load. destruct (store w !! l); reflexivity. Qed.

Lemma frame_get_tracer {A} (f : World -> A) : frame f get_tracer.
Proof. intros w. reflexivity. Qed.

Lemma frame_Object_assign {A} (f : World -> A) (o : RequestOptions) :
  frame f (Object_assign o).
Proof. intros w. unfold Object_assign. destruct (readable o); reflexivity. Qed.

Create HintDb frame.

#[export] Hint Resolve frame_ret frame_throw frame_lift frame_read frame_load
  frame_get_tracer frame_Object_assign : frame.

Ltac frame_step :=
  match goal with
  | |- frame _ (bind _ _) => apply frame_bind; [|intros ?]
  | |- frame _ (try_catch _ _) => apply frame_try_catch
  | |- frame _ (if ?b then _ else _) => destruct b
  | |- frame _ (match ?x with _ => _ end) => destruct x
  | |- frame _ _ => solve [auto with frame]
  | |- frame _ _ => intros ?; reflexivity
  end.

Ltac frame_solve := repeat frame_step.

(** The tracer is touched only by the two functions that start spans. *)

Lemma tracer_setHeader (request : ClientRequest) (options : loc)
    (name value : string) :
  frame tracer (setHeader request options name value).
Proof. unfold setHeader. frame_solve. Qed.

Lemma tracer_inject (request : ClientRequest) (hs : list (string * string)) :
  forall options, frame tracer (inject request options hs).
Proof.
  induction hs as [|nv hs IH]; intros options; cbn [inject].
  - frame_solve.
  - apply frame_bind; [apply tracer_setHeader|]. intros l. apply IH.
Qed.

Lemma tracer_makeRequestTrace (request : ClientRequest) (options : loc)
    (span : option Span) :
  frame tracer (makeRequestTrace request options span).
Proof.
  unfold makeRequestTrace. destruct span as [span|]; [|frame_solve].
  apply frame_bind; [frame_solve|]. intros t.
  apply frame_bind.
  - destruct (propagation t); [apply tracer_inject|frame_solve].
  - intros l. frame_solve.
Qed.

Lemma isIgnored_frame {A T} (f : World -> A) (url : MaybeStr) (request : T)
    (list : option (list (IgnoreMatcher T))) :
  (forall l w, f (with_log l w) = f w) ->
  frame f (isIgnored url request list).
Proof.
  intros Hf.
  assert (forall e, frame f (effect e)) as Heffect by (intros e w; apply Hf).
  unfold isIgnored. destruct list as [l|]; [|frame_solve].
  generalize 0%nat. induction l as [|p l IH]; intros i; cbn [isIgnored_from].
  - frame_solve.
  - apply frame_bind; [apply Heffect|]. intros _.
    apply frame_bind; [frame_solve|]. intros [|]; [frame_solve|apply IH].
Qed.

Lemma tracer_isIgnored {T} (url : MaybeStr) (request : T)
    (list : option (list (IgnoreMatcher T))) :
  frame tracer (isIgnored url request list).
Proof. by apply isIgnored_frame. Qed.

(** ** Outgoing requests *)

Section Outgoing.

Context (rt : Runtime) (plugin : HttpPlugin).

Lemma readUrlFields_pure (o : RequestOptions) (w : World) :
  (readUrlFields rt o w).2 = w.
Proof.
  unfold readUrlFields, bind, read, ret, throw.
  destruct (pathname o) as [p|]; [|reflexivity].
  destruct (Nat.eqb _ 0).
  - destruct (path o) as [[| |s]|]; try reflexivity;
      try (destruct (url_parse rt s); [|reflexivity]);
      destruct (method o); try reflexivity;
      destruct (protocol o); try reflexivity;
      destruct (host o); reflexivity.
  - destruct (method o); try reflexivity;
      destruct (protocol o); try reflexivity;
      destruct (host o); reflexivity.
Qed.

Lemma readUrlFields_method (o : RequestOptions) (w w' : World)
    (f : string * string * string) :
  readUrlFields rt o w = (Ret f, w') ->
  exists m, method o = Got m /\ f.1.2 = Js.or_else m "GET".
Proof.
  unfold readUrlFields, bind, read, ret, throw.
  destruct (pathname o) as [p|]; [|discriminate].
  destruct (Nat.eqb _ 0).
  - destruct (path o) as [[| |s]|]; try discriminate;
      try (destruct (url_parse rt s); [|discriminate]);
      destruct (method o) as [m|]; try discriminate;
      destruct (protocol o); try discriminate;
      destruct (host o); try discriminate;
      intros [= <- <-]; by exists m.
  - destruct (method o) as [m|]; try discriminate;
      destruct (protocol o); try discriminate;
      destruct (host o); try discriminate;
      intros [= <- <-]; by exists m.
Qed.

(** Resolving the target of a call changes the store only. *)
Lemma resolve_target_frame {A} (f : World -> A) (arg : OutgoingArg) :
  (forall s w, f (with_store s w) = f w) ->
  frame f (resolve_target rt arg).
Proof.
  intros Hf. unfold resolve_target, readUrlFields.
  assert (forall o, frame f (alloc o)) as Halloc by (intros o w; apply Hf).
  frame_solve; try apply Halloc.
Qed.

Lemma resolve_target_method (arg : OutgoingArg) (w w0 : World)
    (options : loc) (pathname method origin : string) :
  resolve_target rt arg w = (Ret (Some (options, pathname, method, origin)), w0) ->
  method = requested_method arg w.
Proof.
  unfold resolve_target, requested_method.
  destruct (falsy_arg arg); [discriminate|].
  destruct arg as [|s|l]; [discriminate| |].
  - unfold bind, read, alloc, ret, throw.
    destruct (url_parse rt s); [|discriminate]. by intros [= _ _ <- _ _].
  - unfold bind at 1, load. destruct (store w !! l) as [o|]; [|discriminate].
    destruct (has_marker o); [discriminate|].
    unfold try_catch, bind.
    destruct (readUrlFields rt o w) as [[f|e] w1] eqn:Hread; [|discriminate].
    apply readUrlFields_method in Hread as (m & -> & Hm).
    unfold ret. by intros [= _ _ <- _ _].
Qed.

Lemma outgoing_name_protocol (method : string) :
  method <> "" ->
  outgoing_name plugin method
    = protocol_name plugin +:+ "-" +:+ Js.toLowerCase method.
Proof.
  intros Hm. unfold outgoing_name, kind, protocol_name, Js.or_else.
  destruct (String.eqb_spec method "") as [->|_]; [done|].
  by destruct (String.eqb (moduleName plugin) "https").
Qed.

Lemma or_else_not_empty (v : MaybeStr) (d : string) :
  d <> "" -> Js.or_else v d <> "".
Proof.
  intros Hd. destruct v as [| |s]; simpl; try assumption.
  by destruct (String.eqb_spec s "").
Qed.

Lemma requested_method_not_empty (arg : OutgoingArg) (w : World) :
  requested_method arg w <> "".
Proof.
  unfold requested_method. destruct arg as [|s|l]; try done.
  destruct (store w !! l) as [o|]; [|done].
  destruct (method o) as [m|]; [|done]. by apply or_else_not_empty.
Qed.

(** The span the second part of the wrapper starts when the request is not
    ignored. *)
Lemma trace_outgoing_span (arg : OutgoingArg) (options : loc)
    (pathname method origin : string) (w w2 : World) :
  isIgnored (Str (origin +:+ pathname)) (next_request w)
    (ignoreOutgoingUrls (plugin_options plugin)) (passed_on arg w)
    = (Ret false, w2) ->
  exists s,
    started (tracer (trace_outgoing plugin arg options pathname method origin w).2)
      = started (tracer w) ++ [s]
    /\ span_kind s = CLIENT
    /\ span_name s = Str (outgoing_name plugin method)
    /\ match currentRootSpan (tracer w) with
       | None => parentSpanId s = None
       | Some root =>
           parentSpanId s = Some (spanId root) /\ traceId s = traceId root
       end.
Proof.
  intros Hignored.
  pose proof (tracer_isIgnored (Str (origin +:+ pathname)) (next_request w)
                (ignoreOutgoingUrls (plugin_options plugin)) (passed_on arg w))
    as Htracer.
  rewrite Hignored in Htracer. simpl in Htracer.
  unfold trace_outgoing. unfold bind at 1.
  change (call_original arg w) with (Ret (next_request w), passed_on arg w).
  cbv beta iota. unfold bind at 1. rewrite Hignored.
  unfold bind at 1. rewrite effect_run.
  unfold bind at 1, get_tracer. cbn [tracer with_log]. rewrite Htracer.
  destruct (currentRootSpan (tracer w)) as [root|] eqn:Hroot.
  - unfold bind, startChildSpan. cbn [tracer with_log]. rewrite Htracer, Hroot.
    rewrite tracer_makeRequestTrace. cbn [tracer with_tracer record_span started].
    eexists. split; [reflexivity|]. by repeat split.
  - unfold startRootSpan. cbn [tracer with_log]. rewrite Htracer.
    match goal with
    | |- context [makeRequestTrace ?r ?o ?s ?w0] =>
        pose proof (tracer_makeRequestTrace r o s w0) as Hmake;
        destruct (makeRequestTrace r o s w0) as [res w3]
    end.
    simpl in Hmake. cbn [snd tracer with_tracer set_current started].
    rewrite Hmake. cbn [started record_span set_current].
    eexists. split; [reflexivity|]. by repeat split.
Qed.

(** C2: a call that reaches the tracing part of the wrapper and is not
    ignored starts exactly one span, of kind CLIENT, named after the protocol
    and the lower-cased method (GET by default): a root span when the tracer
    has no current root span, and otherwise a child of the current root span
    with the same trace identifier. *)
Theorem outgoingRequest_root_or_child (arg : OutgoingArg) (w w0 w2 : World)
    (options : loc) (pathname method origin : string) :
  resolve_target rt arg w
    = (Ret (Some (options, pathname, method, origin)), w0) ->
  isIgnored (Str (origin +:+ pathname)) (next_request w0)
    (ignoreOutgoingUrls (plugin_options plugin)) (passed_on arg w0)
    = (Ret false, w2) ->
  exists s,
    started (tracer (outgoingRequest rt plugin arg w).2)
      = started (tracer w) ++ [s]
    /\ span_kind s = CLIENT
    /\ span_name s
       = Str (protocol_name plugin +:+ "-"
                +:+ Js.toLowerCase (requested_method arg w))
    /\ match currentRootSpan (tracer w) with
       | None => parentSpanId s = None
       | Some root =>
           parentSpanId s = Some (spanId root) /\ traceId s = traceId root
       end.
Proof.
  intros Hresolve Hignored.
  pose proof (resolve_target_frame tracer arg (fun _ _ => eq_refl) w) as Htracer.
  pose proof (resolve_target_method _ _ _ _ _ _ _ Hresolve) as Hmethod.
  rewrite Hresolve in Htracer. simpl in Htracer.
  unfold outgoingRequest, bind. rewrite Hresolve.
  destruct (trace_outgoing_span arg options pathname method origin w0 w2 Hignored)
    as (s & Hstarted & Hkind & Hname & Hparent).
  exists s. rewrite Hstarted, Htracer in *. repeat split; try assumption.
  rewrite Hname, Hmethod. f_equal. apply outgoing_name_protocol.
  apply requested_method_not_empty.
Qed.

(** C5 (amended): when the headers of the options object carry the reserved
    marker with a truthy value, the wrapper returns what the original
    function returns for the same argument and does nothing else: no span is
    started and no ignore rule is evaluated. *)
Theorem outgoingRequest_own_traffic (l : loc) (o : RequestOptions)
    (h : gmap string HeaderValue) (v : HeaderValue) (w : World) :
  store w !! l = Some o ->
  headers o = Some h ->
  h !! outgoing_marker = Some v ->
  Js.header_truthy v = true ->
  outgoingRequest rt plugin (ArgObject l) w
    = (Ret (next_request w), passed_on (ArgObject l) w)
  /\ tracer (passed_on (ArgObject l) w) = tracer w
  /\ log (passed_on (ArgObject l) w)
     = log w ++ [CallOriginal (ArgObject l) (next_request w)].
Proof.
  intros Hl Hh Hv Htruthy. split; [|by split].
  unfold outgoingRequest, resolve_target. cbn [falsy_arg].
  assert (has_marker o = true) as Hmarker
    by (unfold has_marker, header; rewrite Hh, Hv; exact Htruthy).
  unfold bind at 1. unfold bind at 1. unfold load. rewrite Hl, Hmarker.
  reflexivity.
Qed.

(** The [try] block raises exactly when one of the reads it performs does. *)
Lemma readUrlFields_raises (o : RequestOptions) (w : World) :
  pathname o = Raises
  \/ method o = Raises \/ protocol o = Raises \/ host o = Raises
  \/ (exists p, pathname o = Got p /\ Js.or_else p "" = ""
        /\ (path o = Raises
            \/ exists s, path o = Got (Str s) /\ url_parse rt s = Raises)) ->
  readUrlFields rt o w = (Throw Raised, w).
Proof.
  unfold readUrlFields, bind, read, ret, throw.
  intros [Hp|[Hm|[Hpr|[Hh|(p & Hp & Hempty & Hpath)]]]].
  - by rewrite Hp.
  - rewrite Hm. destruct (pathname o) as [p|]; [|reflexivity].
    destruct (Nat.eqb _ 0); [|reflexivity].
    destruct (path o) as [[| |s]|]; try reflexivity.
    by destruct (url_parse rt s).
  - rewrite Hpr. destruct (pathname o) as [p|]; [|reflexivity].
    destruct (Nat.eqb _ 0).
    + destruct (path o) as [[| |s]|]; try reflexivity;
        try (destruct (url_parse rt s); [|reflexivity]);
        by destruct (method o).
    + by destruct (method o).
  - rewrite Hh. destruct (pathname o) as [p|]; [|reflexivity].
    destruct (Nat.eqb _ 0).
    + destruct (path o) as [[| |s]|]; try reflexivity;
        try (destruct (url_parse rt s); [|reflexivity]);
        destruct (method o); try reflexivity; by destruct (protocol o).
    + destruct (method o); try reflexivity; by destruct (protocol o).
  - rewrite Hp, Hempty. cbn [String.length Nat.eqb].
    destruct Hpath as [->|(s & -> & ->)]; reflexivity.
Qed.

(** C10: without an options argument, and when a read of the [try] block
    raises, the wrapper returns what the original function returns for the
    same argument and does nothing else: no span is started and no ignore
    rule is evaluated. *)
Theorem outgoingRequest_passes_on (arg : OutgoingArg) (w : World) :
  falsy_arg arg = true
  \/ (exists l o e, arg = ArgObject l /\ store w !! l = Some o
        /\ (readUrlFields rt o w).1 = Throw e) ->
  outgoingRequest rt plugin arg w = (Ret (next_request w), passed_on arg w)
  /\ tracer (passed_on arg w) = tracer w
  /\ log (passed_on arg w) = log w ++ [CallOriginal arg (next_request w)].
Proof.
  intros Hcase. split; [|by split].
  unfold outgoingRequest, resolve_target.
  destruct Hcase as [Hfalsy|(l & o & e & -> & Hl & Hraise)].
  - rewrite Hfalsy. reflexivity.
  - cbn [falsy_arg]. unfold bind at 1. unfold bind at 1. unfold load.
    rewrite Hl. destruct (has_marker o); [reflexivity|].
    unfold try_catch, bind at 1.
    pose proof (readUrlFields_pure o w) as Hpure.
    destruct (readUrlFields rt o w) as [[f|e'] w1]; simpl in Hraise, Hpure;
      [discriminate|].
    subst w1. reflexivity.
Qed.

(** The wrapper around outgoing requests never reads [createSpanWithNet]. *)
Lemma outgoingRequest_ignores_createSpanWithNet (plugin' : HttpPlugin)
    (arg : OutgoingArg) (w : World) :
  moduleName plugin' = moduleName plugin ->
  ignoreOutgoingUrls (plugin_options plugin')
    = ignoreOutgoingUrls (plugin_options plugin) ->
  outgoingRequest rt plugin' arg w = outgoingRequest rt plugin arg w.
Proof.
  intros Hname Hlist.
  unfold outgoingRequest, trace_outgoing, outgoing_name, kind.
  rewrite Hname, Hlist. reflexivity.
Qed.

End Outgoing.

Lemma outgoingRequest_root_or_child_witness :
  exists s,
    started (tracer (outgoingRequest Sample.rt (Sample.plugin false)
                       (ArgObject 0%nat)
                       (Sample.world Sample.tracer1 (Sample.options0 None))).2)
      = [Sample.root0; s]
    /\ span_kind s = CLIENT
    /\ span_name s = Str "http-get"
    /\ parentSpanId s = Some 7%nat /\ traceId s = 7%nat.
Proof.
  destruct (outgoingRequest_root_or_child Sample.rt (Sample.plugin false)
              (ArgObject 0%nat)
              (Sample.world Sample.tracer1 (Sample.options0 None))
              (Sample.world Sample.tracer1 (Sample.options0 None))
              (with_log [CallOriginal (ArgObject 0%nat) 0%nat; EvalPattern 0]
                 (passed_on (ArgObject 0%nat)
                    (Sample.world Sample.tracer1 (Sample.options0 None))))
              0%nat "/test" "GET" "http://fake.service.io")
    as (s & Hstarted & Hkind & Hname & Hparent).
  - vm_compute. reflexivity.
  - vm_compute. reflexivity.
  - exists s. repeat split; assumption || apply Hparent.
Defined.

(** C5, as stated, fails: a marker header whose value is the empty string is
    carried by the options, and the request is traced all the same. *)
Lemma marker_with_empty_value_is_traced :
  Sample.empty_marker !! outgoing_marker = Some (HStr "")
  /\ log (outgoingRequest Sample.rt (Sample.plugin false) (ArgObject 0%nat)
            (Sample.world Sample.tracer0
               (Sample.options0 (Some Sample.empty_marker)))).2
     = [CallOriginal (ArgObject 0%nat) 0%nat; EvalPattern 0;
        WrapEmitter (ERequest 0%nat)]
  /\ started (tracer (outgoingRequest Sample.rt (Sample.plugin false)
                        (ArgObject 0%nat)
                        (Sample.world Sample.tracer0
                           (Sample.options0 (Some Sample.empty_marker)))).2)
     = [Sample.http_get].
Proof. vm_compute. repeat split. Qed.

Lemma outgoingRequest_own_traffic_witness :
  outgoingRequest Sample.rt (Sample.plugin false) (ArgObject 0%nat)
    (Sample.world Sample.tracer0 (Sample.options0 (Some Sample.marker)))
  = (Ret 0%nat,
     passed_on (ArgObject 0%nat)
       (Sample.world Sample.tracer0 (Sample.options0 (Some Sample.marker)))).
Proof.
  apply (outgoingRequest_own_traffic Sample.rt (Sample.plugin false) 0%nat
           (Sample.options0 (Some Sample.marker)) Sample.marker (HNum 1)).
  - vm_compute. reflexivity.
  - reflexivity.
  - vm_compute. reflexivity.
  - reflexivity.
Defined.

Lemma outgoingRequest_passes_on_witness :
  outgoingRequest Sample.rt (Sample.plugin false) (ArgObject 0%nat)
    (Sample.world Sample.tracer0 Sample.malformed_path)
  = (Ret 0%nat,
     passed_on (ArgObject 0%nat)
       (Sample.world Sample.tracer0 Sample.malformed_path)).
Proof.
  apply (outgoingRequest_passes_on Sample.rt (Sample.plugin false)
           (ArgObject 0%nat)
           (Sample.world Sample.tracer0 Sample.malformed_path)).
  right. exists 0%nat, Sample.malformed_path, Raised.
  repeat split; vm_compute; reflexivity.
Defined.

(** ** Incoming requests *)

Section Incoming.

Context (rt : Runtime) (plugin : HttpPlugin).

Lemma call_emit_run (event : string) (w : World) :
  call_emit rt event w
    = (Ret (original_emit rt event), with_log (log w ++ [CallEmit event]) w).
Proof. reflexivity. Qed.

(** With [createSpanWithNet], a call of the wrapper around incoming requests
    leaves the request untraced or traces it with a child span. *)
Lemma incomingRequest_forced_child (event : string) (request : IncomingMessage)
    (response : ServerResponse) (w : World) :
  createSpanWithNet (plugin_options plugin) = true ->
  (started (tracer (incomingRequest rt plugin event request response w).2)
     = started (tracer w)
   /\ listeners (incomingRequest rt plugin event request response w).2
      = listeners w)
  \/ (exists root s,
        currentRootSpan (tracer w) = Some root
        /\ started (tracer (incomingRequest rt plugin event request response w).2)
           = started (tracer w) ++ [s]
        /\ parentSpanId s = Some (spanId root)
        /\ traceId s = traceId root
        /\ span_kind s = SERVER
        /\ listeners (incomingRequest rt plugin event request response w).2
           = listeners w ++ [WrappedEnd (sr_id response) request s]).
Proof.
  intros Hnet.
  remember (incomingRequest rt plugin event request response w) as run eqn:Hrun.
  unfold incomingRequest in Hrun.
  destruct (negb (String.eqb event "request")); [subst run; left; by split|].
  unfold bind at 1 in Hrun.
  assert (exists r, (match im_url request with
                     | Str u => read (url_parse rt u)
                     | _ => throw Raised
                     end) w = (r, w)) as [r Hparse].
  { destruct (im_url request) as [| |u]; try (by eexists).
    unfold read. destruct (url_parse rt u); by eexists. }
  rewrite Hparse in Hrun. destruct r as [parsed|e]; [|subst run; left; by split].
  unfold bind at 1 in Hrun.
  pose proof (isIgnored_frame tracer (u_pathname parsed) request
                (ignoreIncomingPaths (plugin_options plugin))
                (fun _ _ => eq_refl) w) as Htracer.
  pose proof (isIgnored_frame listeners (u_pathname parsed) request
                (ignoreIncomingPaths (plugin_options plugin))
                (fun _ _ => eq_refl) w) as Hlisteners.
  destruct (isIgnored (u_pathname parsed) request
              (ignoreIncomingPaths (plugin_options plugin)) w)
    as [[ignored|e] w1]; simpl in Htracer, Hlisteners;
    [|subst run; left; split; simpl; congruence].
  destruct ignored; [subst run; left; split; simpl; congruence|].
  unfold bind at 1, get_tracer, createSpan in Hrun. rewrite Hnet in Hrun.
  unfold bind at 1, startChildSpan in Hrun. rewrite Htracer in Hrun.
  destruct (currentRootSpan (tracer w)) as [root|];
    [|subst run; left; split; simpl; congruence].
  subst run. right. eexists root, _. split; [reflexivity|].
  simpl. rewrite Hlisteners. by repeat split.
Qed.

Lemma append_empty_r (s : string) : s +:+ "" = s.
Proof.
  induction s as [|c s IH]; [reflexivity|].
  change (String c (s +:+ "") = String c s). by rewrite IH.
Qed.

Lemma join_empty_cons (s : string) (l : list string) :
  Js.join "" (s :: l) = s +:+ Js.join "" l.
Proof.
  destruct l; cbn [Js.join]; [by rewrite append_empty_r|reflexivity].
Qed.

Lemma route_of_stack (p : MaybeStr) (stack : list string) :
  route_of p (Some stack) = route_segments stack.
Proof.
  unfold route_of. induction stack as [|segment rest IH]; [reflexivity|].
  cbn [List.filter route_segments].
  destruct (String.eqb segment "/"); cbn [negb]; [exact IH|].
  cbn [map]. rewrite join_empty_cons, IH. reflexivity.
Qed.

Lemma attribute_writes_app (span : nat) (key : string) (l1 l2 : list Effect) :
  attribute_writes span key (l1 ++ l2)
    = attribute_writes span key l1 ++ attribute_writes span key l2.
Proof.
  induction l1 as [|e l1 IH]; [reflexivity|].
  destruct e; simpl; try exact IH.
  destruct (_ && _); simpl; by rewrite IH.
Qed.

(** C9: the wrapper around [response.end] writes the route attribute once.
    Without a middleware stack its value is the path of the request URL;
    with one it is the concatenation, in list order, of the segments other
    than "/", each with a leading "/". *)
Theorem incoming_route_attribute (request : IncomingMessage)
    (response : ServerResponse) (rootSpan : Span) (requestUrl : Url)
    (w : World) :
  url_parse rt (Js.or_else (im_url request) "localhost") = Got requestUrl ->
  (wrappedEnd rt request response rootSpan w).1 = Ret tt
  /\ attribute_writes (spanId rootSpan) ATTRIBUTE_HTTP_ROUTE
       (log (wrappedEnd rt request response rootSpan w).2)
     = attribute_writes (spanId rootSpan) ATTRIBUTE_HTTP_ROUTE (log w)
       ++ [Str (match middlewareStack request with
                | None => Js.template (u_path requestUrl)
                | Some stack => route_segments stack
                end)].
Proof.
  intros Hparse. unfold wrappedEnd, bind, restore_end, effect, addAttribute,
    effect, message_event_id, read.
  rewrite Hparse. cbn [fst snd log with_log with_listeners ret].
  split; [reflexivity|].
  repeat rewrite attribute_writes_app. cbn [attribute_writes].
  rewrite Nat.eqb_refl. cbn. repeat rewrite app_nil_r.
  destruct (middlewareStack request) as [stack|]; [|reflexivity].
  by rewrite route_of_stack.
Qed.

End Incoming.

Lemma incoming_route_attribute_witness :
  attribute_writes 7 ATTRIBUTE_HTTP_ROUTE
    (log (wrappedEnd Sample.rt (Sample.request0 (Some ["/"; "api"; "/users"]))
            Sample.response0 Sample.root0
            (Sample.world Sample.tracer1 (Sample.options0 None))).2)
  = [Str "/api/users"].
Proof.
  destruct (incoming_route_attribute Sample.rt
              (Sample.request0 (Some ["/"; "api"; "/users"]))
              Sample.response0 Sample.root0
              {| u_protocol := Null; u_host := Null; u_hostname := Null;
                 u_pathname := Str "/incoming/rootSpan/";
                 u_path := Str "/incoming/rootSpan/" |}
              (Sample.world Sample.tracer1 (Sample.options0 None)))
    as [_ Hroute].
  - reflexivity.
  - exact Hroute.
Defined.

(** C6, as stated, fails: with [createSpanWithNet] set, an outgoing request
    made without a current root span starts a root span. *)
Lemma createSpanWithNet_outgoing_root :
  createSpanWithNet (plugin_options (Sample.plugin true)) = true
  /\ started (tracer (outgoingRequest Sample.rt (Sample.plugin true)
                        (ArgObject 0%nat)
                        (Sample.world Sample.tracer0 (Sample.options0 None))).2)
     = [Sample.http_get]
  /\ is_root Sample.http_get = true.
Proof. vm_compute. repeat split. Qed.

(** C6 (amended): with [createSpanWithNet] set, an incoming request is
    either left untraced or traced with a child span of the current root
    span, never with a root span; the wrapper around outgoing requests does
    not read the flag. *)
Theorem createSpanWithNet_incoming_child (rt : Runtime) (plugin : HttpPlugin) :
  createSpanWithNet (plugin_options plugin) = true ->
  (forall (event : string) (request : IncomingMessage)
          (response : ServerResponse) (w : World),
     (started (tracer (incomingRequest rt plugin event request response w).2)
        = started (tracer w)
      /\ listeners (incomingRequest rt plugin event request response w).2
         = listeners w)
     \/ (exists root s,
           currentRootSpan (tracer w) = Some root
           /\ started (tracer (incomingRequest rt plugin event request response w).2)
              = started (tracer w) ++ [s]
           /\ parentSpanId s = Some (spanId root)
           /\ traceId s = traceId root
           /\ span_kind s = SERVER
           /\ listeners (incomingRequest rt plugin event request response w).2
              = listeners w ++ [WrappedEnd (sr_id response) request s]))
  /\ (forall (arg : OutgoingArg) (w : World),
        outgoingRequest rt plugin arg w
          = outgoingRequest rt
              {| moduleName := moduleName plugin;
                 plugin_options :=
                   {| ignoreIncomingPaths :=
                        ignoreIncomingPaths (plugin_options plugin);
                      ignoreOutgoingUrls :=
                        ignoreOutgoingUrls (plugin_options plugin);
                      createSpanWithNet := false |} |}
              arg w).
Proof.
  intros Hnet. split.
  - intros event request response w.
    by apply incomingRequest_forced_child.
  - intros arg w. by apply outgoingRequest_ignores_createSpanWithNet.
Qed.

Lemma createSpanWithNet_incoming_child_witness :
  exists s,
    started (tracer (incomingRequest Sample.rt (Sample.plugin true) "request"
                       (Sample.request0 None) Sample.response0
                       (Sample.world Sample.tracer1 (Sample.options0 None))).2)
      = [Sample.root0; s]
    /\ parentSpanId s = Some 7%nat.
Proof.
  destruct (createSpanWithNet_incoming_child Sample.rt (Sample.plugin true)
              eq_refl) as [Hincoming _].
  destruct (Hincoming "request" (Sample.request0 None) Sample.response0
              (Sample.world Sample.tracer1 (Sample.options0 None)))
    as [[Hsame _]|(root & s & Hroot & Hstarted & Hparent & _)].
  - vm_compute in Hsame. discriminate Hsame.
  - exists s. injection Hroot as <-. split; [exact Hstarted|exact Hparent].
Defined.

(** ** The header setter *)

Lemma set_headers_same (o : RequestOptions) (h : gmap string HeaderValue) :
  headers o = Some h -> set_headers (Some h) o = o.
Proof. destruct o; simpl. by intros ->. Qed.

Lemma expect_written (h : gmap string HeaderValue) (nv : string * string) :
  Js.header_truthy (header h "Expect") = true ->
  keeps_expect nv ->
  Js.header_truthy (header (<[nv.1 := HStr nv.2]> h) "Expect") = true.
Proof.
  intros Hexpect Hkeeps. unfold header.
  destruct (decide (nv.1 = "Expect")) as [Heq|Hne].
  - rewrite Heq, lookup_insert_eq. simpl.
    destruct (String.eqb_spec nv.2 "") as [Hempty|_]; [|reflexivity].
    by destruct (Hkeeps Heq).
  - by rewrite lookup_insert_ne.
Qed.

(** Once the variable refers to a marked object, every write goes into the
    headers of that object and nothing else happens. *)
Lemma inject_marked (request : ClientRequest) (l : loc)
    (ws : list (string * string)) :
  forall (w : World) (o : RequestOptions) (h : gmap string HeaderValue),
    store w !! l = Some o ->
    headers o = Some h ->
    Js.header_truthy (header h "Expect") = true ->
    __cloned o = true ->
    Forall keeps_expect ws ->
    inject request l ws w
      = (Ret l,
         with_store (<[l := set_headers (Some (written h ws)) o]> (store w)) w).
Proof.
  induction ws as [|nv ws IH]; intros w o h Hl Hh Hexpect Hmarked Hkeeps.
  - cbn [inject written foldl]. unfold ret.
    rewrite (set_headers_same o h Hh), (insert_id _ _ _ Hl).
    by destruct w.
  - apply Forall_cons in Hkeeps as [Hnv Hkeeps].
    cbn [inject]. unfold bind at 1, setHeader.
    unfold bind at 1, load. rewrite Hl.
    unfold hasExpectHeader. rewrite Hh, Hexpect, Hmarked. cbn [negb].
    unfold bind at 1, ret. unfold bind at 1, load. rewrite Hl, Hh.
    unfold bind at 1, save, ret.
    rewrite (IH _ (set_headers (Some (<[nv.1 := HStr nv.2]> h)) o)
               (<[nv.1 := HStr nv.2]> h)).
    + cbn [store with_store]. rewrite insert_insert_eq. reflexivity.
    + cbn [store with_store]. apply lookup_insert_eq.
    + reflexivity.
    + by apply expect_written.
    + exact Hmarked.
    + exact Hkeeps.
Qed.

(** Without a truthy Expect header every write is a [setHeader] on the live
    request. *)
Lemma inject_live (request : ClientRequest) (l : loc)
    (ws : list (string * string)) :
  forall (w : World) (o : RequestOptions),
    store w !! l = Some o ->
    hasExpectHeader o = false ->
    inject request l ws w
      = (Ret l,
         with_log (log w ++ map (fun nv => SetHeader request nv.1 nv.2) ws) w).
Proof.
  induction ws as [|nv ws IH]; intros w o Hl Hexpect.
  - cbn [inject map]. unfold ret. by rewrite app_nil_r, with_log_same.
  - cbn [inject map]. unfold bind at 1, setHeader.
    unfold bind at 1, load. rewrite Hl, Hexpect.
    unfold bind at 1. rewrite effect_run. unfold ret.
    rewrite (IH _ o); [|exact Hl|exact Hexpect].
    cbn [log with_log]. rewrite <- app_assoc. reflexivity.
Qed.

(** C8, as stated, fails: an Expect header whose value is the empty string
    is carried by the options, and the setter writes through [setHeader] on
    the live request. *)
Lemma empty_expect_uses_setHeader :
  Sample.empty_expect !! "Expect" = Some (HStr "")
  /\ inject 5%nat 0%nat [("x-b3-traceid", "463ac35c9f6413ad")]
       (Sample.world Sample.tracer0 (Sample.options0 (Some Sample.empty_expect)))
     = (Ret 0%nat,
        with_log [SetHeader 5%nat "x-b3-traceid" "463ac35c9f6413ad"]
          (Sample.world Sample.tracer0
             (Sample.options0 (Some Sample.empty_expect)))).
Proof. vm_compute. split; reflexivity. Qed.

(** C8 (amended): for an options object that is not yet marked, whose
    properties can be read and whose Expect header has a truthy value, the
    writes of the setter all go into the headers of one copy of the object,
    made at the first write; the live request sees no [setHeader] and the
    caller's object stays as it was. Without a truthy Expect header every
    write is a [setHeader] on the live request and no object changes. *)
Theorem setter_writes (request : ClientRequest) (l : loc) (o : RequestOptions)
    (ws : list (string * string)) (w : World) :
  store w !! l = Some o ->
  (forall h,
     headers o = Some h ->
     Js.header_truthy (header h "Expect") = true ->
     __cloned o = false ->
     readable o = true ->
     Forall keeps_expect ws ->
     ws <> [] ->
     fresh (dom (store w)) <> l
     /\ inject request l ws w
        = (Ret (fresh (dom (store w))),
           with_store
             (<[fresh (dom (store w))
                := set_cloned true (set_headers (Some (written h ws)) o)]>
                (store w))
             (with_log (log w ++ [CloneOptions l (fresh (dom (store w)))]) w)))
  /\ (hasExpectHeader o = false ->
      inject request l ws w
        = (Ret l,
           with_log (log w ++ map (fun nv => SetHeader request nv.1 nv.2) ws) w)).
Proof.
  intros Hl. split; [|by apply inject_live].
  intros h Hh Hexpect Hfresh Hreadable Hkeeps Hws.
  split.
  { intros Heq. apply (is_fresh (dom (store w))). rewrite Heq.
    apply elem_of_dom. by exists o. }
  destruct ws as [|nv ws]; [done|]. clear Hws.
  apply Forall_cons in Hkeeps as [Hnv Hkeeps].
  set (c := fresh (dom (store w))).
  cbn [inject]. unfold bind at 1, setHeader.
  unfold bind at 1, load. rewrite Hl.
  unfold hasExpectHeader. rewrite Hh, Hexpect, Hfresh. cbn [negb].
  unfold bind at 1. unfold bind at 1, Object_assign. rewrite Hreadable.
  unfold ret at 1. unfold bind at 1, alloc. fold c.
  unfold bind at 1. rewrite effect_run. unfold ret at 1.
  unfold bind at 1, load. cbn [store with_store with_log].
  rewrite lookup_insert_eq. cbn [headers set_cloned set_headers]. rewrite Hh.
  unfold bind at 1, save, ret.
  rewrite (inject_marked request c ws _
             (set_headers (Some (<[nv.1 := HStr nv.2]> h))
                (set_cloned true (set_headers (Some h) o)))
             (<[nv.1 := HStr nv.2]> h)).
  - cbn [store with_store with_log]. rewrite !insert_insert_eq. reflexivity.
  - cbn [store with_store with_log]. apply lookup_insert_eq.
  - reflexivity.
  - by apply expect_written.
  - reflexivity.
  - exact Hkeeps.
Qed.

Lemma setter_writes_witness :
  inject 5%nat 0%nat
    [("x-b3-traceid", "463ac35c9f6413ad"); ("x-b3-spanid", "a2fb4a1d1a96d312")]
    (Sample.world Sample.tracer0 (Sample.options0 (Some Sample.expect)))
  = (Ret 1%nat,
     with_store
       (<[1%nat := set_cloned true
                     (set_headers
                        (Some (written Sample.expect
                                 [("x-b3-traceid", "463ac35c9f6413ad");
                                  ("x-b3-spanid", "a2fb4a1d1a96d312")]))
                        (Sample.options0 (Some Sample.expect)))]>
          {[ 0%nat := Sample.options0 (Some Sample.expect) ]})
       (with_log [CloneOptions 0%nat 1%nat]
          (Sample.world Sample.tracer0 (Sample.options0 (Some Sample.expect))))).
Proof.
  destruct (setter_writes 5%nat 0%nat (Sample.options0 (Some Sample.expect))
              [("x-b3-traceid", "463ac35c9f6413ad");
               ("x-b3-spanid", "a2fb4a1d1a96d312")]
              (Sample.world Sample.tracer0 (Sample.options0 (Some Sample.expect))))
    as [Hcopy _].
  - vm_compute. reflexivity.
  - destruct (Hcopy Sample.expect) as [_ Hrun].
    + reflexivity.
    + vm_compute. reflexivity.
    + reflexivity.
    + reflexivity.
    + repeat constructor; intros Hname; vm_compute in Hname; discriminate Hname.
    + discriminate.
    + rewrite Hrun. vm_compute. reflexivity.
Defined.

(** ** Finishing the span of an outgoing request *)

Lemma ends_app (span : nat) (l1 l2 : list Effect) :
  ends span (l1 ++ l2) = (ends span l1 + ends span l2)%nat.
Proof.
  induction l1 as [|e l1 IH]; [reflexivity|].
  destruct e; simpl; try exact IH.
  destruct (Nat.eqb _ _); simpl; by rewrite IH.
Qed.

Lemma listeners_inject (request : ClientRequest) (hs : list (string * string)) :
  forall options, frame listeners (inject request options hs).
Proof.
  induction hs as [|nv hs IH]; intros options; cbn [inject].
  - frame_solve.
  - apply frame_bind; [unfold setHeader; frame_solve|]. intros l. apply IH.
Qed.

(** What [makeRequestTrace] registers when it is given a span. *)
Lemma makeRequestTrace_arms (request : ClientRequest) (options : loc)
    (span : Span) (w w' : World) (r : ClientRequest) :
  makeRequestTrace request options (Some span) w = (Ret r, w') ->
  exists options',
    listeners w' = listeners w ++ armed_listeners request span options'.
Proof.
  unfold makeRequestTrace. unfold bind at 1, get_tracer. unfold bind at 1.
  set (c := match propagation (tracer w) with
            | Some format =>
                inject request options (prop_inject format (spanContext span))
            | None => ret options
            end).
  assert (frame listeners c) as Hframe
    by (unfold c; destruct (propagation (tracer w));
        [apply listeners_inject|frame_solve]).
  specialize (Hframe w). destruct (c w) as [[options'|e] w1]; [|discriminate].
  simpl in Hframe. unfold bind, register, ret. intros [= _ <-].
  exists options'. cbn [listeners with_listeners]. rewrite Hframe.
  by rewrite <- app_assoc.
Qed.

Section Lifecycle.

Context (rt : Runtime).

Lemma onError_finishes (span : Span) (error : Error) (w : World) :
  finishes_once span (onError span error) w.
Proof.
  eexists. split; [|split].
  - unfold appends, onError, bind, addAttribute, effect.
    cbn [fst snd log listeners store with_log].
    split; [reflexivity|]. split; [|by split].
    rewrite <- !app_assoc. reflexivity.
  - cbn. rewrite Nat.eqb_refl. reflexivity.
  - cbn. rewrite Nat.eqb_refl. apply (bool_decide_unpack _). by vm_compute.
Qed.

Lemma onEnd_finishes (response : IncomingMessage) (span : Span) (l : loc)
    (o : RequestOptions) (w : World) :
  store w !! l = Some o ->
  is_got (host o) = true ->
  is_got (path o) = true ->
  finishes_once span (onEnd rt response span l) w.
Proof.
  intros Hl Hhost Hpath.
  destruct (host o) as [h|] eqn:Hh; [|discriminate].
  destruct (path o) as [p|] eqn:Hp; [|discriminate].
  unfold finishes_once, appends.
  remember (onEnd rt response span l w) as run eqn:Hrun.
  unfold onEnd in Hrun. unfold bind at 1, load in Hrun. rewrite Hl in Hrun.
  rewrite Hh, Hp in Hrun.
  unfold bind, read, ret, addAttribute, effect, message_event_id in Hrun.
  destruct (Js.truthy h || Js.truthy (hostname o));
    destruct (Js.truthy h);
    destruct (Js.header_truthy _);
    subst run; cbn [fst snd log listeners store with_log];
    (eexists; split;
     [split; [reflexivity|]; split; [|by split];
      rewrite <- !app_assoc; reflexivity
     |split;
      [cbn; rewrite Nat.eqb_refl; reflexivity
      |cbn; rewrite Nat.eqb_refl; apply (bool_decide_unpack _); by vm_compute]]).
Qed.

Context (req : ClientRequest) (span : Span) (l : loc) (o : RequestOptions)
  (response : IncomingMessage).

Abbreviation armed := (armed_listeners req span l).
Abbreviation responded := (responded_listeners req span l response).

Lemma finishes_once_after_skip (c : M unit) (w : World) :
  finishes_once span c w -> finishes_once span (ret tt;; c) w.
Proof. intros Hc. exact Hc. Qed.

Lemma finishes_once_before_skips (c k : M unit) (w : World) :
  (forall w', k w' = (Ret tt, w')) ->
  finishes_once span c w -> finishes_once span (c;; k) w.
Proof.
  intros Hk (new & (Hret & Hlog & Hlis & Hstore) & Hends & Hnodup).
  exists new. split; [|by split]. unfold appends, bind.
  destruct (c w) as [[[]|e] w1]; simpl in *; try discriminate.
  rewrite Hk. by repeat split.
Qed.

Lemma finishes_once_emit (sig : Signal) (ls : list Listener) (w : World) :
  listeners w = ls ->
  finishes_once span (run_listeners rt sig ls) w ->
  finishes_once span (emit rt sig) w.
Proof. intros <- Hrun. exact Hrun. Qed.

Lemma emit_request_error_armed (error : Error) (w : World) :
  listeners w = armed ->
  finishes_once span (emit rt (EmitRequestError req error)) w.
Proof.
  intros Hlisteners. apply (finishes_once_emit _ _ _ Hlisteners).
  cbn [armed_listeners run_listeners react]. rewrite Nat.eqb_refl.
  apply finishes_once_after_skip, finishes_once_before_skips;
    [reflexivity|apply onError_finishes].
Qed.

Lemma emit_response_armed (w : World) :
  listeners w = armed ->
  emit rt (EmitResponse req response) w
    = (Ret tt,
       with_listeners responded
         (with_log (log w ++ [WrapEmitter (EMessage (im_id response))]) w)).
Proof.
  intros Hlisteners. unfold emit. rewrite Hlisteners.
  cbn [armed_listeners run_listeners react]. rewrite Nat.eqb_refl.
  unfold bind, onResponse, bind, effect, register, ret.
  cbn [listeners with_log with_listeners]. rewrite Hlisteners. reflexivity.
Qed.

Lemma emit_terminal_responded (sig : Signal) (w : World) :
  listeners w = responded ->
  store w !! l = Some o ->
  is_got (host o) = true ->
  is_got (path o) = true ->
  terminal req response sig = true ->
  finishes_once span (emit rt sig) w.
Proof.
  intros Hlisteners Hl Hhost Hpath Hterminal.
  apply (finishes_once_emit _ _ _ Hlisteners).
  destruct sig as [r resp|r error|id|id error]; cbn [terminal] in Hterminal;
    [discriminate| | |];
    cbn [responded_listeners armed_listeners app run_listeners react];
    rewrite Hterminal.
  - apply finishes_once_after_skip, finishes_once_before_skips;
      [reflexivity|apply onError_finishes].
  - do 2 apply finishes_once_after_skip.
    apply finishes_once_before_skips; [reflexivity|].
    by apply (onEnd_finishes response span l o).
  - do 3 apply finishes_once_after_skip.
    apply finishes_once_before_skips; [reflexivity|apply onError_finishes].
Qed.

Lemma deliver_terminal_responded (post : list Signal) :
  forall w : World,
    listeners w = responded ->
    store w !! l = Some o ->
    is_got (host o) = true ->
    is_got (path o) = true ->
    forallb (terminal req response) post = true ->
    (deliver rt post w).1 = Ret tt
    /\ ends (spanId span) (log (deliver rt post w).2)
       = (ends (spanId span) (log w) + List.length post)%nat.
Proof.
  induction post as [|sig post IH]; intros w Hlisteners Hl Hhost Hpath Hpost.
  - cbn. split; [reflexivity|lia].
  - cbn [forallb] in Hpost. apply andb_prop in Hpost as [Hsig Hpost].
    destruct (emit_terminal_responded sig w Hlisteners Hl Hhost Hpath Hsig)
      as (new & (Hret & Hlog & Hlis & Hstore) & Hends & _).
    cbn [deliver]. unfold bind.
    destruct (emit rt sig w) as [[[]|e] w1]; simpl in Hret, Hlog, Hlis, Hstore;
      [|discriminate].
    destruct (IH w1) as [IHret IHends]; try assumption; try congruence.
    split; [exact IHret|]. rewrite IHends, Hlog, ends_app, Hends.
    cbn [List.length]. lia.
Qed.

Lemma deliver_request_errors_armed (pre : list Error) :
  forall w : World,
    listeners w = armed ->
    exists w1,
      deliver rt (map (EmitRequestError req) pre) w = (Ret tt, w1)
      /\ listeners w1 = armed
      /\ store w1 = store w
      /\ ends (spanId span) (log w1)
         = (ends (spanId span) (log w) + List.length pre)%nat.
Proof.
  induction pre as [|error pre IH]; intros w Hlisteners.
  - exists w. cbn. repeat split; [assumption|lia].
  - destruct (emit_request_error_armed error w Hlisteners)
      as (new & (Hret & Hlog & Hlis & Hstore) & Hends & _).
    cbn [map deliver]. unfold bind.
    destruct (emit rt (EmitRequestError req error) w) as [[[]|e] w1];
      simpl in Hret, Hlog, Hlis, Hstore; [|discriminate].
    destruct (IH w1) as (w2 & Hrun & Hlis2 & Hstore2 & Hends2); [congruence|].
    exists w2. rewrite Hrun. repeat split; try congruence.
    rewrite Hends2, Hlog, ends_app, Hends. cbn [List.length]. lia.
Qed.

Lemma deliver_app (sigs1 sigs2 : list Signal) :
  forall w w1 : World,
    deliver rt sigs1 w = (Ret tt, w1) ->
    deliver rt (sigs1 ++ sigs2) w = deliver rt sigs2 w1.
Proof.
  induction sigs1 as [|sig sigs1 IH]; intros w w1 Hrun.
  - cbn in Hrun. by injection Hrun as <-.
  - cbn [app deliver] in *. unfold bind in *.
    destruct (emit rt sig w) as [[[]|e] w0]; [|discriminate].
    by apply IH.
Qed.

End Lifecycle.

(** C1, as stated, fails: an ['error'] on the response after its ['end']
    writes two more attributes and calls [end()] a second time. *)
Lemma error_after_end_ends_twice :
  log (deliver Sample.rt
         [EmitResponse 0%nat Sample.not_found; EmitEnd 9; EmitError 9 Sample.reset]
         (outgoingRequest Sample.rt (Sample.plugin false) (ArgObject 0%nat)
            (Sample.world Sample.tracer0 (Sample.options0 None))).2).2
  = [CallOriginal (ArgObject 0%nat) 0%nat; EvalPattern 0;
     WrapEmitter (ERequest 0%nat); WrapEmitter (EMessage 9);
     AddAttribute 0 "http.host" (Str "fake.service.io");
     AddAttribute 0 "http.method" (Str "GET");
     AddAttribute 0 "http.path" (Str "/test");
     AddAttribute 0 "http.route" (Str "/test");
     AddAttribute 0 "http.status_code" (Str "404");
     SetStatus 0 5;
     AddMessageEvent 0 SENT "110ec58aa0f24ac48393c866d813b8d1";
     SpanEnd 0;
     AddAttribute 0 "http.error_name" (Str "Error");
     AddAttribute 0 "http.error_message" (Str "socket hang up");
     SetStatus 0 2;
     SpanEnd 0]
  /\ ends 0
       (log (deliver Sample.rt
               [EmitResponse 0%nat Sample.not_found; EmitEnd 9;
                EmitError 9 Sample.reset]
               (outgoingRequest Sample.rt (Sample.plugin false)
                  (ArgObject 0%nat)
                  (Sample.world Sample.tracer0 (Sample.options0 None))).2).2)
     = 2%nat.
Proof. vm_compute. split; reflexivity. Qed.

(** C1 (amended): every terminal signal delivered to an armed request runs
    one listener, which writes each of its attributes once and calls
    [end()] once. After the errors [pre] on the request, the response and the
    terminal signals [post], [end()] has been called once for each of them:
    exactly once when exactly one terminal signal is delivered. *)
Theorem span_ended_once_per_signal (rt : Runtime) (req : ClientRequest)
    (span : Span) (l : loc) (o : RequestOptions) (response : IncomingMessage)
    (pre : list Error) (post : list Signal) (w : World) :
  listeners w = armed_listeners req span l ->
  store w !! l = Some o ->
  is_got (host o) = true ->
  is_got (path o) = true ->
  forallb (terminal req response) post = true ->
  (deliver rt (map (EmitRequestError req) pre
                 ++ EmitResponse req response :: post) w).1 = Ret tt
  /\ ends (spanId span)
       (log (deliver rt (map (EmitRequestError req) pre
                           ++ EmitResponse req response :: post) w).2)
     = (ends (spanId span) (log w) + List.length pre + List.length post)%nat
  /\ (forall error,
        finishes_once span (emit rt (EmitRequestError req error)) w)
  /\ (forall sig,
        terminal req response sig = true ->
        finishes_once span (emit rt sig)
          (emit rt (EmitResponse req response) w).2).
Proof.
  intros Hlisteners Hl Hhost Hpath Hpost.
  destruct (deliver_request_errors_armed rt req span l pre w Hlisteners)
    as (w1 & Hpre & Hlis1 & Hstore1 & Hends1).
  rewrite (deliver_app rt _ _ w w1 Hpre). cbn [deliver]. unfold bind.
  rewrite (emit_response_armed rt req span l response w1 Hlis1).
  destruct (deliver_terminal_responded rt req span l o response post
              (with_listeners (responded_listeners req span l response)
                 (with_log (log w1 ++ [WrapEmitter (EMessage (im_id response))])
                    w1)))
    as [Hret Hends]; try assumption; try reflexivity.
  { cbn [store with_listeners with_log]. congruence. }
  split; [exact Hret|]. split; [|split].
  - rewrite Hends. cbn [log with_listeners with_log].
    rewrite ends_app, Hends1. cbn [ends]. lia.
  - intros error. by apply (emit_request_error_armed rt req span l).
  - intros sig Hsig.
    rewrite (emit_response_armed rt req span l response w Hlisteners).
    by apply (emit_terminal_responded rt req span l o response).
Qed.

Lemma span_ended_once_per_signal_witness :
  ends 0
    (log (deliver Sample.rt
            [EmitResponse 0%nat Sample.not_found; EmitEnd 9]
            (outgoingRequest Sample.rt (Sample.plugin false) (ArgObject 0%nat)
               (Sample.world Sample.tracer0 (Sample.options0 None))).2).2)
  = 1%nat.
Proof.
  destruct (span_ended_once_per_signal Sample.rt 0%nat Sample.http_get 0%nat
              (Sample.options0 None) Sample.not_found [] [EmitEnd 9]
              (outgoingRequest Sample.rt (Sample.plugin false) (ArgObject 0%nat)
                 (Sample.world Sample.tracer0 (Sample.options0 None))).2)
    as (_ & Hends & _).
  - vm_compute. reflexivity.
  - vm_compute. reflexivity.
  - reflexivity.
  - reflexivity.
  - reflexivity.
  - exact Hends.
Defined.

(** * Further properties *)

(** ** The status classifier, read backwards *)

Lemma convertTraceStatus_chain (c : Z) :
  convertTraceStatus c =
    if (c <? 200) || (c >? 504) then UNKNOWN
    else if c <? 400 then OK
    else if c =? 400 then INVALID_ARGUMENT
    else if c =? 401 then UNAUTHENTICATED
    else if c =? 403 then PERMISSION_DENIED
    else if c =? 404 then NOT_FOUND
    else if c =? 429 then RESOURCE_EXHAUSTED
    else if c =? 501 then UNIMPLEMENTED
    else if c =? 503 then UNAVAILABLE
    else if c =? 504 then DEADLINE_EXCEEDED
    else UNKNOWN.
Proof.
  unfold convertTraceStatus.
  destruct ((c <? 200) || (c >? 504))%bool eqn:E1; [reflexivity|].
  destruct (c <? 400) eqn:E2.
  - replace (c >=? 200) with true by lia. reflexivity.
  - rewrite andb_false_r. clear E1 E2.
    destruct c as [|p|p]; try reflexivity.
    repeat (destruct p as [p|p|]; try reflexivity).
Qed.

(** X1: each outcome of the classifier tells the status code back: OK means
    a code of [200, 400), each of the eight named outcomes means its one
    code, and UNKNOWN means any other code. *)
Theorem convertTraceStatus_inverse (c : Z) :
  (convertTraceStatus c = OK <-> 200 <= c < 400)
  /\ (convertTraceStatus c = INVALID_ARGUMENT <-> c = 400)
  /\ (convertTraceStatus c = UNAUTHENTICATED <-> c = 401)
  /\ (convertTraceStatus c = PERMISSION_DENIED <-> c = 403)
  /\ (convertTraceStatus c = NOT_FOUND <-> c = 404)
  /\ (convertTraceStatus c = RESOURCE_EXHAUSTED <-> c = 429)
  /\ (convertTraceStatus c = UNIMPLEMENTED <-> c = 501)
  /\ (convertTraceStatus c = UNAVAILABLE <-> c = 503)
  /\ (convertTraceStatus c = DEADLINE_EXCEEDED <-> c = 504)
  /\ (convertTraceStatus c = UNKNOWN <->
        ~ (200 <= c < 400) /\ c ∉ mapped_codes).
Proof.
  rewrite convertTraceStatus_chain. unfold mapped_codes.
  rewrite !elem_of_cons, elem_of_nil.
  destruct ((c <? 200) || (c >? 504))%bool eqn:E1;
    [repeat split; intros; try discriminate; try lia|].
  destruct (Z.ltb_spec c 400);
    [repeat split; intros; try discriminate; try lia|].
  repeat match goal with
         | |- context [Z.eqb c ?n] => destruct (Z.eqb_spec c n)
         end;
    repeat split; intros; try discriminate; try lia.
Qed.

(** ** The pattern matcher on any list *)

Lemma isIgnored_from_first {T} (u : MaybeStr) (r : T)
    (L : list (IgnoreMatcher T)) :
  forall (i : nat) (w : World),
    isIgnored_from i u r L w =
      match list_find (fun p => settles u r p = true) L with
      | Some (k, p) =>
          (verdict u r p, with_log (log w ++ (EvalPattern <$> seq i (S k))) w)
      | None =>
          (Ret false, with_log (log w ++ (EvalPattern <$> seq i (List.length L))) w)
      end.
Proof.
  induction L as [|p L IH]; intros i w.
  - simpl. unfold ret. by rewrite app_nil_r, with_log_same.
  - cbn [isIgnored_from list_find]. unfold bind at 1. rewrite effect_run.
    unfold bind at 1, lift.
    destruct (decide (settles u r p = true)) as [Hs|Hs]; unfold settles in Hs;
      destruct (isSatisfyPattern u r p) as [[|]|e] eqn:Hp; try done.
    + unfold verdict. by rewrite Hp.
    + unfold verdict. by rewrite Hp.
    + cbv beta iota. rewrite IH.
      destruct (list_find _ L) as [[k x]|]; simpl;
        rewrite <- app_assoc; reflexivity.
Qed.

(** X2: on any rule list, [isIgnored] answers with the first rule that
    settles the question, true when that rule matches and its TypeError when
    it is of no recognized kind, and answers false when no rule does; the
    rules after the settling one are not evaluated. *)
Theorem isIgnored_first_settling {T} (u : MaybeStr) (r : T)
    (L : list (IgnoreMatcher T)) (w : World) :
  isIgnored u r (Some L) w =
    match list_find (fun p => settles u r p = true) L with
    | Some (k, p) =>
        (verdict u r p, with_log (log w ++ (EvalPattern <$> seq 0 (S k))) w)
    | None =>
        (Ret false, with_log (log w ++ (EvalPattern <$> seq 0 (List.length L))) w)
    end.
Proof. apply isIgnored_from_first. Qed.

Lemma isIgnored_from_result {T} (u : MaybeStr) (r : T)
    (L : list (IgnoreMatcher T)) (i : nat) (w : World) :
  (isIgnored_from i u r L w).1 =
    match list_find (fun p => settles u r p = true) L with
    | Some (_, p) => verdict u r p
    | None => Ret false
    end.
Proof.
  rewrite isIgnored_from_first. by destruct (list_find _ L) as [[k p]|].
Qed.

(** X3: putting a rule list before another tries the first list and, when
    it answers false, the second one: a match or a TypeError of the first
    list is final. *)
Theorem isIgnored_app {T} (u : MaybeStr) (r : T)
    (L1 L2 : list (IgnoreMatcher T)) (w : World) :
  (isIgnored u r (Some (L1 ++ L2)) w).1 =
    match (isIgnored u r (Some L1) w).1 with
    | Ret false => (isIgnored u r (Some L2) w).1
    | settled => settled
    end.
Proof.
  unfold isIgnored. rewrite !isIgnored_from_result.
  induction L1 as [|p L1 IH]; cbn [app list_find].
  - reflexivity.
  - destruct (decide (settles u r p = true)) as [Hp|Hp]; cbn [fmap option_fmap option_map].
    + unfold settles, verdict in *.
      by destruct (isSatisfyPattern u r p) as [[|]|e].
    + destruct (list_find _ (L1 ++ L2)) as [[k x]|];
        destruct (list_find _ L1) as [[k1 x1]|]; simpl in *; exact IH.
Qed.

(** ** The route of a middleware stack *)

Lemma string_app_assoc (a b c : string) : (a +:+ b) +:+ c = a +:+ (b +:+ c).
Proof.
  induction a as [|x a IH]; [reflexivity|].
  change (String x ((a +:+ b) +:+ c) = String x (a +:+ (b +:+ c))).
  by rewrite IH.
Qed.

Lemma route_segments_app (a b : list string) :
  route_segments (a ++ b) = route_segments a +:+ route_segments b.
Proof.
  induction a as [|segment a IH]; [reflexivity|].
  cbn [app route_segments]. destruct (String.eqb segment "/"); [exact IH|].
  by rewrite IH, string_app_assoc.
Qed.

Lemma route_segments_shape (stack : list string) :
  route_segments stack = "" \/ begins_with_slash (route_segments stack) = true.
Proof.
  induction stack as [|segment stack IH]; [by left|].
  cbn [route_segments]. destruct (String.eqb segment "/"); [exact IH|].
  right. destruct (begins_with_slash segment) eqn:Hslash.
  - destruct segment as [|c segment]; [discriminate|]. exact Hslash.
  - reflexivity.
Qed.

(** X4: the route of two middleware stacks put end to end is the route of
    the first followed by the route of the second, and the route of a stack
    is empty or begins with "/". *)
Theorem route_of_app (p : MaybeStr) (a b : list string) :
  route_of p (Some (a ++ b)) = route_of p (Some a) +:+ route_of p (Some b)
  /\ (route_of p (Some a) = ""
      \/ begins_with_slash (route_of p (Some a)) = true).
Proof.
  rewrite !route_of_stack. split.
  - apply route_segments_app.
  - apply route_segments_shape.
Qed.

(** ** Outgoing requests, whatever the path taken *)

(** The calls of the original function are made by [call_original] alone. *)

Lemma log_with_log (l : list Effect) (w : World) : log (with_log l w) = l.
Proof. reflexivity. Qed.

Lemma log_passed_on (arg : OutgoingArg) (w : World) :
  log (passed_on arg w) = log w ++ [CallOriginal arg (next_request w)].
Proof. reflexivity. Qed.

Lemma original_calls_app (l1 l2 : list Effect) :
  original_calls (l1 ++ l2) = original_calls l1 ++ original_calls l2.
Proof. apply omap_app. Qed.

Lemma original_calls_EvalPattern (l : list nat) :
  original_calls (EvalPattern <$> l) = [].
Proof. induction l as [|i l IH]; [reflexivity|exact IH]. Qed.

Lemma calls_effect (e : Effect) :
  original_call e = None ->
  frame (fun w => original_calls (log w)) (effect e).
Proof.
  intros He w. cbn [effect snd log with_log].
  rewrite original_calls_app. unfold original_calls at 2. simpl.
  rewrite He. apply app_nil_r.
Qed.

Ltac calls_solve :=
  repeat first [frame_step | apply calls_effect; reflexivity].

Lemma calls_setHeader (request : ClientRequest) (options : loc)
    (name value : string) :
  frame (fun w => original_calls (log w)) (setHeader request options name value).
Proof. unfold setHeader. calls_solve. Qed.

Lemma calls_inject (request : ClientRequest) (hs : list (string * string)) :
  forall options,
    frame (fun w => original_calls (log w)) (inject request options hs).
Proof.
  induction hs as [|nv hs IH]; intros options; cbn [inject].
  - calls_solve.
  - apply frame_bind; [apply calls_setHeader|]. intros l. apply IH.
Qed.

Lemma calls_makeRequestTrace (request : ClientRequest) (options : loc)
    (span : option Span) :
  frame (fun w => original_calls (log w))
    (makeRequestTrace request options span).
Proof.
  unfold makeRequestTrace. destruct span as [span|]; [|calls_solve].
  apply frame_bind; [calls_solve|]. intros t.
  apply frame_bind.
  - destruct (propagation t); [apply calls_inject|calls_solve].
  - intros l. calls_solve.
Qed.

Lemma makeRequestTrace_returns (request : ClientRequest) (options : loc)
    (span : option Span) (w : World) (r : ClientRequest) :
  (makeRequestTrace request options span w).1 = Ret r -> r = request.
Proof.
  unfold makeRequestTrace. destruct span as [span|]; [|by intros [= <-]].
  unfold bind at 1, get_tracer. unfold bind at 1.
  destruct (match propagation (tracer w) with
            | Some format =>
                inject request options (prop_inject format (spanContext span))
            | None => ret options
            end w) as [[l|e] w1]; [|discriminate].
  unfold bind, register, ret. by intros [= <-].
Qed.

(** The options objects the setter leaves alone. *)

Lemma fresh_not_allocated (w : World) (l : loc) :
  is_Some (store w !! l) -> fresh (dom (store w)) <> l.
Proof.
  intros Hl Heq. apply (is_fresh (dom (store w))). rewrite Heq.
  by apply elem_of_dom.
Qed.

Lemma setHeader_away (request : ClientRequest) (v : loc) (name value : string)
    (l : loc) (w : World) :
  v <> l ->
  is_Some (store w !! l) ->
  store (setHeader request v name value w).2 !! l = store w !! l
  /\ (forall v', (setHeader request v name value w).1 = Ret v' -> v' <> l).
Proof.
  intros Hne Hl. pose proof (fresh_not_allocated w l Hl) as Hfresh.
  remember (setHeader request v name value w) as run eqn:Hrun.
  unfold setHeader in Hrun. unfold bind at 1, load in Hrun.
  destruct (store w !! v) as [ov|] eqn:Hv;
    [|subst run; split; [reflexivity|discriminate]].
  destruct (hasExpectHeader ov) eqn:Hexpect.
  - unfold hasExpectHeader in Hexpect.
    destruct (headers ov) as [h|] eqn:Hh; [|discriminate].
    destruct (__cloned ov); cbn [negb] in Hrun.
    + unfold bind at 1, ret in Hrun. unfold bind at 1, load in Hrun.
      rewrite Hv, Hh in Hrun.
      unfold bind, save, ret in Hrun. subst run. cbn [fst snd store with_store].
      split; [by rewrite lookup_insert_ne|by intros v' [= <-]].
    + unfold bind at 1 in Hrun. unfold bind at 1, Object_assign in Hrun.
      destruct (readable ov);
        [|subst run; split; [reflexivity|discriminate]].
      unfold ret at 1 in Hrun. unfold bind at 1, alloc in Hrun.
      unfold bind at 1 in Hrun. rewrite effect_run in Hrun.
      unfold ret at 1 in Hrun. unfold bind at 1, load in Hrun.
      cbn [store with_store with_log] in Hrun.
      rewrite lookup_insert_eq in Hrun.
      cbn [headers set_cloned set_headers] in Hrun. rewrite Hh in Hrun.
      unfold bind, save, ret in Hrun. subst run.
      cbn [fst snd store with_store with_log].
      split; [by rewrite !lookup_insert_ne|by intros v' [= <-]].
  - unfold bind in Hrun. rewrite effect_run in Hrun. unfold ret in Hrun.
    subst run. split; [reflexivity|by intros v' [= <-]].
Qed.

Lemma inject_away (request : ClientRequest) (hs : list (string * string))
    (l : loc) :
  forall (v : loc) (w : World),
    v <> l ->
    is_Some (store w !! l) ->
    store (inject request v hs w).2 !! l = store w !! l.
Proof.
  induction hs as [|nv hs IH]; intros v w Hne Hl; [reflexivity|].
  cbn [inject]. unfold bind.
  destruct (setHeader_away request v nv.1 nv.2 l w Hne Hl) as [Hstore Hvar].
  destruct (setHeader request v nv.1 nv.2 w) as [[v'|e] w1];
    simpl in Hstore, Hvar; [|exact Hstore].
  rewrite IH; [exact Hstore|by apply Hvar|by rewrite Hstore].
Qed.

(** The setter starting from the caller's own object. *)
Lemma inject_keeps (request : ClientRequest) (hs : list (string * string))
    (l : loc) (o : RequestOptions) :
  (hasExpectHeader o = true -> __cloned o = false) ->
  forall w : World,
    store w !! l = Some o ->
    store (inject request l hs w).2 !! l = Some o.
Proof.
  intros Hmark. induction hs as [|nv hs IH]; intros w Hl; [exact Hl|].
  cbn [inject]. unfold bind at 1, setHeader. unfold bind at 1, load.
  rewrite Hl. destruct (hasExpectHeader o) eqn:Hexpect.
  - rewrite (Hmark eq_refl). cbn [negb].
    unfold bind at 1. unfold bind at 1, Object_assign.
    destruct (readable o); [|exact Hl].
    unfold ret at 1. unfold bind at 1, alloc.
    unfold bind at 1. rewrite effect_run.
    unfold ret at 1. unfold bind at 1, load.
    cbn [store with_store with_log]. rewrite lookup_insert_eq.
    cbn [headers set_cloned set_headers].
    assert (fresh (dom (store w)) <> l) as Hfresh
      by (apply fresh_not_allocated; by exists o).
    unfold hasExpectHeader in Hexpect.
    destruct (headers o) as [h|] eqn:Hh; [|discriminate].
    unfold bind at 1, save, ret.
    rewrite inject_away.
    + cbn [store with_store with_log]. by rewrite !lookup_insert_ne.
    + exact Hfresh.
    + cbn [store with_store with_log]. rewrite !lookup_insert_ne by exact Hfresh.
      by exists o.
  - unfold bind at 1. rewrite effect_run. unfold ret at 1.
    by apply IH.
Qed.

Lemma makeRequestTrace_keeps (request : ClientRequest) (v : loc)
    (span : option Span) (l : loc) (o : RequestOptions) (w : World) :
  v <> l \/ (hasExpectHeader o = true -> __cloned o = false) ->
  store w !! l = Some o ->
  store (makeRequestTrace request v span w).2 !! l = Some o.
Proof.
  intros Hcase Hl. unfold makeRequestTrace.
  destruct span as [span|]; [|exact Hl].
  unfold bind at 1, get_tracer. unfold bind at 1.
  set (c := match propagation (tracer w) with
            | Some format =>
                inject request v (prop_inject format (spanContext span))
            | None => ret v
            end).
  assert (store (c w).2 !! l = Some o) as Hstore.
  { unfold c. destruct (propagation (tracer w)) as [format|]; [|exact Hl].
    destruct (decide (v = l)) as [->|Hne].
    - destruct Hcase as [Hne|Hmark]; [done|]. by apply inject_keeps.
    - rewrite inject_away; [exact Hl|exact Hne|by exists o]. }
  destruct (c w) as [[v'|e] w1]; simpl in Hstore; exact Hstore.
Qed.

(** What the second part of the wrapper does once no rule has ignored the
    request: the tail of [trace_outgoing]. *)
Lemma trace_outgoing_unfold (plugin : HttpPlugin) (arg : OutgoingArg)
    (options : loc) (pathname method origin : string) (w w2 : World) :
  isIgnored (Str (origin +:+ pathname)) (next_request w)
    (ignoreOutgoingUrls (plugin_options plugin)) (passed_on arg w)
    = (Ret false, w2) ->
  trace_outgoing plugin arg options pathname method origin w
    = match currentRootSpan (tracer w2) with
      | None =>
          startRootSpan (Str (outgoing_name plugin method)) CLIENT None
            (makeRequestTrace (next_request w) options)
            (with_log (log w2 ++ [WrapEmitter (ERequest (next_request w))]) w2)
      | Some _ =>
          (span <- startChildSpan (Str (outgoing_name plugin method)) CLIENT;;
           makeRequestTrace (next_request w) options span)
            (with_log (log w2 ++ [WrapEmitter (ERequest (next_request w))]) w2)
      end.
Proof.
  intros Hrun. unfold trace_outgoing. unfold bind at 1.
  change (call_original arg w) with (Ret (next_request w), passed_on arg w).
  cbv beta iota. unfold bind at 1. rewrite Hrun.
  unfold bind at 1. rewrite effect_run.
  unfold bind at 1, get_tracer. cbn [tracer with_log].
  by destruct (currentRootSpan (tracer w2)).
Qed.


Section OutgoingPaths.

Context (rt : Runtime) (plugin : HttpPlugin).

(** A rule settles the question: the wrapper stops there. *)
Lemma trace_outgoing_settled (arg : OutgoingArg) (options : loc)
    (pathname method origin : string) (w w2 : World) (out : Result bool) :
  isIgnored (Str (origin +:+ pathname)) (next_request w)
    (ignoreOutgoingUrls (plugin_options plugin)) (passed_on arg w)
    = (out, w2) ->
  out <> Ret false ->
  trace_outgoing plugin arg options pathname method origin w
    = (match out with
       | Ret _ => Ret (next_request w)
       | Throw e => Throw e
       end, w2).
Proof.
  intros Hrun Hout. unfold trace_outgoing. unfold bind at 1.
  change (call_original arg w) with (Ret (next_request w), passed_on arg w).
  cbv beta iota. unfold bind at 1. rewrite Hrun.
  by destruct out as [[|]|e].
Qed.

Lemma resolve_target_store (arg : OutgoingArg) (w : World) (l : loc)
    (o : RequestOptions) :
  store w !! l = Some o ->
  store (resolve_target rt arg w).2 !! l = Some o.
Proof.
  intros Hl. unfold resolve_target. destruct (falsy_arg arg); [exact Hl|].
  destruct arg as [|s|l0]; [exact Hl| |].
  - unfold bind, read, alloc, ret, throw.
    destruct (url_parse rt s); [|exact Hl].
    cbn [snd store with_store]. rewrite lookup_insert_ne; [exact Hl|].
    intros Heq. apply (is_fresh (dom (store w))). rewrite Heq.
    apply elem_of_dom. by exists o.
  - unfold bind at 1, load. destruct (store w !! l0) as [o0|]; [|exact Hl].
    destruct (has_marker o0); [exact Hl|].
    unfold try_catch, bind.
    pose proof (readUrlFields_pure rt o0 w) as Hpure.
    destruct (readUrlFields rt o0 w) as [[f|e] w1]; simpl in Hpure; subst w1;
      exact Hl.
Qed.

(** X5: an outgoing request that a rule ignores is only passed on: the
    wrapper returns the request the original function made, and besides
    that call and the evaluation of the rules up to the matching one it
    does nothing: no span, no listener, no wrapped emitter. *)
Theorem outgoingRequest_ignored (arg : OutgoingArg) (w w0 : World)
    (options : loc) (pathname method origin : string)
    (L : list (IgnoreMatcher ClientRequest)) (k : nat)
    (p : IgnoreMatcher ClientRequest) :
  resolve_target rt arg w
    = (Ret (Some (options, pathname, method, origin)), w0) ->
  ignoreOutgoingUrls (plugin_options plugin) = Some L ->
  list_find (fun q => settles (Str (origin +:+ pathname)) (next_request w) q = true) L
    = Some (k, p) ->
  isSatisfyPattern (Str (origin +:+ pathname)) (next_request w) p = Ret true ->
  (outgoingRequest rt plugin arg w).1 = Ret (next_request w)
  /\ log (outgoingRequest rt plugin arg w).2
     = log w ++ CallOriginal arg (next_request w)
         :: (EvalPattern <$> seq 0 (S k))
  /\ tracer (outgoingRequest rt plugin arg w).2 = tracer w
  /\ listeners (outgoingRequest rt plugin arg w).2 = listeners w.
Proof.
  intros Hresolve Hlist Hfind Hp.
  cut (outgoingRequest rt plugin arg w
       = (Ret (next_request w),
          with_log (log w ++ CallOriginal arg (next_request w)
                      :: (EvalPattern <$> seq 0 (S k)))
            (passed_on arg w0))
       /\ tracer w0 = tracer w /\ listeners w0 = listeners w).
  { intros (-> & Ht & Hls). by repeat split. }
  pose proof (resolve_target_frame rt tracer arg (fun _ _ => eq_refl) w) as Ht.
  pose proof (resolve_target_frame rt listeners arg (fun _ _ => eq_refl) w) as Hls.
  pose proof (resolve_target_frame rt log arg (fun _ _ => eq_refl) w) as Hlog.
  pose proof (resolve_target_frame rt next_request arg (fun _ _ => eq_refl) w) as Hn.
  rewrite Hresolve in Ht, Hls, Hlog, Hn. simpl in Ht, Hls, Hlog, Hn.
  split; [|by split].
  unfold outgoingRequest, bind. rewrite Hresolve.
  rewrite (trace_outgoing_settled arg options pathname method origin w0
             (with_log (log (passed_on arg w0) ++ (EvalPattern <$> seq 0 (S k)))
                (passed_on arg w0))
             (Ret true)).
  - rewrite Hn. f_equal. cbn [log passed_on with_log]. rewrite Hlog, Hn.
    by rewrite <- app_assoc.
  - rewrite Hlist. unfold isIgnored. rewrite isIgnored_from_first, Hn, Hfind.
    unfold verdict. by rewrite Hp.
  - discriminate.
Qed.

(** X6: a rule of no recognized kind that the evaluation reaches makes the
    wrapper raise its TypeError once the original function has been called:
    the request exists, and it is neither returned nor traced. *)
Theorem outgoingRequest_rule_error (arg : OutgoingArg) (w w0 : World)
    (options : loc) (pathname method origin : string)
    (L : list (IgnoreMatcher ClientRequest)) (k : nat)
    (p : IgnoreMatcher ClientRequest) :
  resolve_target rt arg w
    = (Ret (Some (options, pathname, method, origin)), w0) ->
  ignoreOutgoingUrls (plugin_options plugin) = Some L ->
  list_find (fun q => settles (Str (origin +:+ pathname)) (next_request w) q = true) L
    = Some (k, p) ->
  recognized p = false ->
  (outgoingRequest rt plugin arg w).1
    = Throw (TypeError "Pattern is in unsupported datatype")
  /\ log (outgoingRequest rt plugin arg w).2
     = log w ++ CallOriginal arg (next_request w)
         :: (EvalPattern <$> seq 0 (S k))
  /\ tracer (outgoingRequest rt plugin arg w).2 = tracer w
  /\ listeners (outgoingRequest rt plugin arg w).2 = listeners w.
Proof.
  intros Hresolve Hlist Hfind Hp.
  cut (outgoingRequest rt plugin arg w
       = (Throw (TypeError "Pattern is in unsupported datatype"),
          with_log (log w ++ CallOriginal arg (next_request w)
                      :: (EvalPattern <$> seq 0 (S k)))
            (passed_on arg w0))
       /\ tracer w0 = tracer w /\ listeners w0 = listeners w).
  { intros (-> & Ht & Hls). by repeat split. }
  pose proof (resolve_target_frame rt tracer arg (fun _ _ => eq_refl) w) as Ht.
  pose proof (resolve_target_frame rt listeners arg (fun _ _ => eq_refl) w) as Hls.
  pose proof (resolve_target_frame rt log arg (fun _ _ => eq_refl) w) as Hlog.
  pose proof (resolve_target_frame rt next_request arg (fun _ _ => eq_refl) w) as Hn.
  rewrite Hresolve in Ht, Hls, Hlog, Hn. simpl in Ht, Hls, Hlog, Hn.
  split; [|by split].
  destruct p as [s|re|f|v]; try discriminate.
  unfold outgoingRequest, bind. rewrite Hresolve.
  rewrite (trace_outgoing_settled arg options pathname method origin w0
             (with_log (log (passed_on arg w0) ++ (EvalPattern <$> seq 0 (S k)))
                (passed_on arg w0))
             (Throw (TypeError "Pattern is in unsupported datatype"))).
  - f_equal. cbn [log passed_on with_log]. rewrite Hlog, Hn.
    by rewrite <- app_assoc.
  - rewrite Hlist. unfold isIgnored. rewrite isIgnored_from_first, Hn, Hfind.
    reflexivity.
  - discriminate.
Qed.

(** The calls of the original function along the second part of the
    wrapper, and what it returns. *)
Lemma trace_outgoing_calls (arg : OutgoingArg) (options : loc)
    (pathname method origin : string) (w : World) :
  original_calls
    (log (trace_outgoing plugin arg options pathname method origin w).2)
    = original_calls (log w) ++ [(arg, next_request w)]
  /\ (forall r,
        (trace_outgoing plugin arg options pathname method origin w).1 = Ret r ->
        r = next_request w).
Proof.
  destruct (isIgnored (Str (origin +:+ pathname)) (next_request w)
              (ignoreOutgoingUrls (plugin_options plugin)) (passed_on arg w))
    as [out w2] eqn:Hrun.
  assert (original_calls (log w2)
          = original_calls (log w) ++ [(arg, next_request w)]) as Hcalls.
  { unfold isIgnored in Hrun.
    destruct (ignoreOutgoingUrls (plugin_options plugin)) as [L|].
    - rewrite isIgnored_from_first in Hrun.
      destruct (list_find _ L) as [[k p]|];
        apply (f_equal snd) in Hrun; cbn [snd] in Hrun; subst w2;
        rewrite log_with_log, log_passed_on;
        by rewrite !original_calls_app, original_calls_EvalPattern, app_nil_r.
    - apply (f_equal snd) in Hrun. cbn [snd ret] in Hrun. subst w2.
      by rewrite log_passed_on, original_calls_app. }
  assert (out <> Ret false ->
          original_calls
            (log (trace_outgoing plugin arg options pathname method origin w).2)
            = original_calls (log w) ++ [(arg, next_request w)]
          /\ (forall r,
                (trace_outgoing plugin arg options pathname method origin w).1
                  = Ret r ->
                r = next_request w)) as Hsettled.
  { intros Hout.
    rewrite (trace_outgoing_settled arg options pathname method origin
               w w2 out Hrun Hout).
    split; [exact Hcalls|]. destruct out as [b|e]; [|discriminate].
    by intros r [= <-]. }
  destruct out as [[|]|e]; [by apply Hsettled| |by apply Hsettled].
  clear Hsettled.
  rewrite (trace_outgoing_unfold plugin arg options pathname method origin
             w w2 Hrun).
  set (w3 := with_log (log w2 ++ [WrapEmitter (ERequest (next_request w))]) w2).
  assert (original_calls (log w3)
          = original_calls (log w) ++ [(arg, next_request w)]) as Hcalls3.
  { unfold w3. rewrite log_with_log.
    by rewrite original_calls_app, Hcalls, app_nil_r. }
  destruct (currentRootSpan (tracer w2)) as [root|].
  - unfold bind, startChildSpan. cbn [tracer].
    destruct (currentRootSpan (tracer w3)) as [root3|].
    + match goal with
      | |- context [makeRequestTrace ?r ?o ?s ?w0] =>
          pose proof (calls_makeRequestTrace r o s w0) as Hmake;
          pose proof (makeRequestTrace_returns r o s w0) as Hret;
          destruct (makeRequestTrace r o s w0) as [res w4]
      end.
      simpl in Hmake, Hret. cbn [fst snd log with_tracer].
      split; [by rewrite Hmake|exact Hret].
    + split; [exact Hcalls3|by intros r [= <-]].
  - unfold startRootSpan.
    match goal with
    | |- context [makeRequestTrace ?r ?o ?s ?w0] =>
        pose proof (calls_makeRequestTrace r o s w0) as Hmake;
        pose proof (makeRequestTrace_returns r o s w0) as Hret;
        destruct (makeRequestTrace r o s w0) as [res w4]
    end.
    simpl in Hmake, Hret. cbn [fst snd log with_tracer].
    split; [by rewrite Hmake|exact Hret].
Qed.

(** X7: the wrapper is transparent. When it returns, it returns the request
    the original function made, and whatever happens the original function
    is called at most once, with the argument the wrapper was given; it is
    not called only when resolving the target has raised. *)
Theorem outgoingRequest_transparent (arg : OutgoingArg) (w : World) :
  (forall r,
     (outgoingRequest rt plugin arg w).1 = Ret r ->
     r = next_request w
     /\ original_calls (log (outgoingRequest rt plugin arg w).2)
        = original_calls (log w) ++ [(arg, next_request w)])
  /\ (original_calls (log (outgoingRequest rt plugin arg w).2)
        = original_calls (log w) ++ [(arg, next_request w)]
      \/ (original_calls (log (outgoingRequest rt plugin arg w).2)
            = original_calls (log w)
          /\ exists e, (resolve_target rt arg w).1 = Throw e)).
Proof.
  pose proof (resolve_target_frame rt log arg (fun _ _ => eq_refl) w) as Hlog.
  pose proof (resolve_target_frame rt next_request arg (fun _ _ => eq_refl) w) as Hn.
  unfold outgoingRequest, bind.
  destruct (resolve_target rt arg w) as [[[[[[options pathname] method] origin]|]|e] w0];
    simpl in Hlog, Hn.
  - destruct (trace_outgoing_calls arg options pathname method origin w0)
      as [Hcalls Hret].
    rewrite Hlog, Hn in Hcalls. rewrite Hn in Hret.
    split; [|by left]. intros r Hr. split; [by apply Hret|exact Hcalls].
  - cbn [call_original fst snd log]. rewrite original_calls_app, Hlog, Hn.
    split; [|by left]. by intros r [= <-].
  - simpl. rewrite Hlog. split; [discriminate|]. right. split; [reflexivity|].
    by exists e.
Qed.

(** X8: one call of the wrapper starts at most one span, and a span it
    starts is of kind CLIENT: a root span when the tracer has no current
    root span, a child span otherwise. *)
Theorem outgoingRequest_at_most_one_span (arg : OutgoingArg) (w : World) :
  started (tracer (outgoingRequest rt plugin arg w).2) = started (tracer w)
  \/ exists s,
       started (tracer (outgoingRequest rt plugin arg w).2)
         = started (tracer w) ++ [s]
       /\ span_kind s = CLIENT
       /\ (parentSpanId s = None <-> currentRootSpan (tracer w) = None).
Proof.
  pose proof (resolve_target_frame rt tracer arg (fun _ _ => eq_refl) w) as Ht.
  unfold outgoingRequest, bind.
  destruct (resolve_target rt arg w) as [[[[[[options pathname] method] origin]|]|e] w0];
    simpl in Ht; [|left; simpl; by rewrite Ht|left; simpl; by rewrite Ht].
  destruct (isIgnored (Str (origin +:+ pathname)) (next_request w0)
              (ignoreOutgoingUrls (plugin_options plugin)) (passed_on arg w0))
    as [out w2] eqn:Hrun.
  pose proof (tracer_isIgnored (Str (origin +:+ pathname)) (next_request w0)
                (ignoreOutgoingUrls (plugin_options plugin)) (passed_on arg w0))
    as Ht2.
  rewrite Hrun in Ht2. simpl in Ht2.
  assert (out <> Ret false ->
          started (tracer (trace_outgoing plugin arg options pathname method
                             origin w0).2) = started (tracer w)) as Hsettled.
  { intros Hout.
    rewrite (trace_outgoing_settled arg options pathname method origin
               w0 w2 out Hrun Hout).
    cbn [snd]. by rewrite Ht2, Ht. }
  destruct out as [[|]|e]; [left; by apply Hsettled| |left; by apply Hsettled].
  right.
  destruct (trace_outgoing_span plugin arg options pathname method origin
              w0 w2 Hrun) as (s & Hstarted & Hkind & _ & Hparent).
  exists s. rewrite Hstarted, Ht in *. split; [reflexivity|].
  split; [exact Hkind|].
  destruct (currentRootSpan (tracer w)) as [root|].
  - destruct Hparent as [Hparent _]. rewrite Hparent. by split.
  - by split.
Qed.

Lemma trace_outgoing_keeps (arg : OutgoingArg) (v : loc)
    (pathname method origin : string) (l : loc) (o : RequestOptions)
    (w : World) :
  v <> l \/ (hasExpectHeader o = true -> __cloned o = false) ->
  store w !! l = Some o ->
  store (trace_outgoing plugin arg v pathname method origin w).2 !! l = Some o.
Proof.
  intros Hcase Hl.
  destruct (isIgnored (Str (origin +:+ pathname)) (next_request w)
              (ignoreOutgoingUrls (plugin_options plugin)) (passed_on arg w))
    as [out w2] eqn:Hrun.
  pose proof (isIgnored_frame (fun w => store w !! l)
                (Str (origin +:+ pathname)) (next_request w)
                (ignoreOutgoingUrls (plugin_options plugin))
                (fun _ _ => eq_refl) (passed_on arg w)) as Hstore.
  rewrite Hrun in Hstore. simpl in Hstore. rewrite Hl in Hstore.
  assert (out <> Ret false ->
          store (trace_outgoing plugin arg v pathname method origin w).2 !! l
            = Some o) as Hsettled.
  { intros Hout.
    by rewrite (trace_outgoing_settled arg v pathname method origin
                  w w2 out Hrun Hout). }
  destruct out as [[|]|e]; [by apply Hsettled| |by apply Hsettled].
  rewrite (trace_outgoing_unfold plugin arg v pathname method origin w w2 Hrun).
  destruct (currentRootSpan (tracer w2)) as [root|] eqn:Hroot.
  - unfold bind, startChildSpan. cbn [tracer with_log]. rewrite Hroot.
    by apply makeRequestTrace_keeps.
  - unfold startRootSpan.
    match goal with
    | |- context [makeRequestTrace ?r ?x ?s ?w0] =>
        pose proof (makeRequestTrace_keeps r x s l o w0 Hcase) as Hmake;
        destruct (makeRequestTrace r x s w0) as [res w4]
    end.
    cbn [snd store with_tracer]. by apply Hmake.
Qed.

Lemma resolve_target_options (arg : OutgoingArg) (w w0 : World) (v : loc)
    (pathname method origin : string) :
  resolve_target rt arg w = (Ret (Some (v, pathname, method, origin)), w0) ->
  arg = ArgObject v \/ v = fresh (dom (store w)).
Proof.
  unfold resolve_target. destruct (falsy_arg arg); [discriminate|].
  destruct arg as [|s|l0]; [discriminate| |].
  - unfold bind, read, alloc, ret, throw.
    destruct (url_parse rt s); [|discriminate].
    intros [= <- _ _ _ _]. by right.
  - unfold bind at 1, load. destruct (store w !! l0) as [o0|]; [|discriminate].
    destruct (has_marker o0); [discriminate|].
    unfold try_catch, bind.
    destruct (readUrlFields rt o0 w) as [[f|e] w1]; [|discriminate].
    unfold ret. intros [= <- _ _ _ _]. by left.
Qed.

(** X9: tracing an outgoing request leaves every options object as it was.
    The one exception the code allows is an object passed as the argument
    that has an Expect header and is already marked [__cloned]. *)
Theorem outgoingRequest_keeps_options (arg : OutgoingArg) (w : World)
    (l : loc) (o : RequestOptions) :
  store w !! l = Some o ->
  (arg = ArgObject l -> hasExpectHeader o = true -> __cloned o = false) ->
  store (outgoingRequest rt plugin arg w).2 !! l = Some o.
Proof.
  intros Hl Hmark.
  pose proof (resolve_target_store arg w l o Hl) as Hstore.
  pose proof (resolve_target_options arg w) as Hoptions.
  unfold outgoingRequest, bind.
  destruct (resolve_target rt arg w) as [[[[[[v pathname] method] origin]|]|e] w0];
    simpl in Hstore; [|exact Hstore|exact Hstore].
  apply trace_outgoing_keeps; [|exact Hstore].
  destruct (Hoptions w0 v pathname method origin eq_refl) as [->| ->].
  - destruct (decide (v = l)) as [->|Hne]; [right; by apply Hmark|by left].
  - left. apply fresh_not_allocated. by exists o.
Qed.

End OutgoingPaths.

(** ** Arming a request *)

(** X10: given a span and an options object without a truthy Expect header,
    [makeRequestTrace] sets on the live request the headers the propagation
    format writes for the context of the span, in the order they are
    written, registers the two listeners of the request, returns the request
    and does nothing else; without a propagation format no header is set. *)
Theorem makeRequestTrace_live (request : ClientRequest) (l : loc)
    (o : RequestOptions) (span : Span) (w : World) :
  store w !! l = Some o ->
  hasExpectHeader o = false ->
  makeRequestTrace request l (Some span) w
    = (Ret request,
       with_listeners (listeners w ++ armed_listeners request span l)
         (with_log
            (log w ++ map (fun nv => SetHeader request nv.1 nv.2)
                        match propagation (tracer w) with
                        | Some format => prop_inject format (spanContext span)
                        | None => []
                        end)
            w)).
Proof.
  intros Hl Hexpect. unfold makeRequestTrace.
  unfold bind at 1, get_tracer. unfold bind at 1.
  destruct (propagation (tracer w)) as [format|].
  - rewrite (inject_live request l _ w o Hl Hexpect).
    unfold bind, register, ret. cbn [listeners with_listeners with_log].
    by rewrite <- app_assoc.
  - unfold ret at 1. unfold bind, register, ret.
    cbn [map listeners with_listeners]. rewrite app_nil_r, with_log_same.
    by rewrite <- app_assoc.
Qed.

(** ** Incoming requests, path by path *)

Section IncomingPaths.

Context (rt : Runtime) (plugin : HttpPlugin).

(** X11: an event other than 'request', and a request whose path a rule
    ignores, are only passed on to the original [emit]: the wrapper returns
    what it returns, starts no span and replaces no [response.end]. *)
Theorem incomingRequest_untraced (event : string) (request : IncomingMessage)
    (response : ServerResponse) (w : World) :
  (event <> "request" ->
   incomingRequest rt plugin event request response w
     = (Ret (original_emit rt event), with_log (log w ++ [CallEmit event]) w))
  /\ (forall u parsed L k p,
        im_url request = Str u ->
        url_parse rt u = Got parsed ->
        ignoreIncomingPaths (plugin_options plugin) = Some L ->
        list_find (fun q => settles (u_pathname parsed) request q = true) L
          = Some (k, p) ->
        isSatisfyPattern (u_pathname parsed) request p = Ret true ->
        incomingRequest rt plugin "request" request response w
          = (Ret (original_emit rt "request"),
             with_log (log w ++ (EvalPattern <$> seq 0 (S k))
                         ++ [CallEmit "request"]) w)).
Proof.
  split.
  - intros Hevent. unfold incomingRequest.
    destruct (String.eqb_spec event "request") as [Heq|_]; [done|].
    reflexivity.
  - intros u parsed L k p Hurl Hparse Hlist Hfind Hp.
    unfold incomingRequest. cbn [String.eqb Ascii.eqb Bool.eqb negb andb].
    rewrite Hurl. unfold bind at 1, read. rewrite Hparse.
    unfold ret at 1. unfold bind at 1.
    rewrite Hlist. unfold isIgnored. rewrite isIgnored_from_first, Hfind.
    unfold verdict. rewrite Hp. rewrite call_emit_run.
    cbn [log with_log]. by rewrite <- app_assoc.
Qed.

(** X12: without [createSpanWithNet], a request that no rule ignores gets a
    root span of kind SERVER named after the pathname of its URL, whatever
    the current root span. The span continues the trace the propagation
    format extracts from the headers of the request and opens a new trace
    when there is none. The wrapper then puts its own function in place of
    [response.end] and hands the event to the original [emit]. *)
Theorem incomingRequest_root_span (request : IncomingMessage)
    (response : ServerResponse) (u : string) (parsed : Url) (w w1 : World) :
  createSpanWithNet (plugin_options plugin) = false ->
  im_url request = Str u ->
  url_parse rt u = Got parsed ->
  isIgnored (u_pathname parsed) request
    (ignoreIncomingPaths (plugin_options plugin)) w = (Ret false, w1) ->
  exists root,
    span_name root = u_pathname parsed
    /\ span_kind root = SERVER
    /\ parentSpanId root = None
    /\ traceId root
       = match match propagation (tracer w) with
               | Some format =>
                   prop_extract format (fun name => im_headers request !! name)
               | None => None
               end with
         | Some context => ctx_traceId context
         | None => next_id (tracer w)
         end
    /\ (incomingRequest rt plugin "request" request response w).1
       = Ret (original_emit rt "request")
    /\ started (tracer (incomingRequest rt plugin "request" request response w).2)
       = started (tracer w) ++ [root]
    /\ listeners (incomingRequest rt plugin "request" request response w).2
       = listeners w ++ [WrappedEnd (sr_id response) request root]
    /\ log (incomingRequest rt plugin "request" request response w).2
       = log w1 ++ [WrapEmitter (EMessage (im_id request));
                    WrapEmitter (EResponse (sr_id response));
                    CallEmit "request"].
Proof.
  intros Hnet Hurl Hparse Hrun.
  pose proof (isIgnored_frame tracer (u_pathname parsed) request
                (ignoreIncomingPaths (plugin_options plugin))
                (fun _ _ => eq_refl) w) as Htracer.
  pose proof (isIgnored_frame listeners (u_pathname parsed) request
                (ignoreIncomingPaths (plugin_options plugin))
                (fun _ _ => eq_refl) w) as Hlisteners.
  rewrite Hrun in Htracer, Hlisteners. simpl in Htracer, Hlisteners.
  remember (incomingRequest rt plugin "request" request response w) as run
    eqn:Heq.
  unfold incomingRequest in Heq.
  cbn [String.eqb Ascii.eqb Bool.eqb negb andb] in Heq.
  rewrite Hurl in Heq. unfold bind at 1, read in Heq. rewrite Hparse in Heq.
  unfold ret at 1 in Heq. unfold bind at 1 in Heq. rewrite Hrun in Heq.
  unfold bind at 1, get_tracer, createSpan in Heq. rewrite Hnet in Heq.
  unfold startRootSpan in Heq. rewrite Htracer in Heq.
  unfold bind, effect, register, call_emit, bind, effect, ret in Heq.
  cbn [fst snd tracer log listeners with_tracer with_log with_listeners
         set_current record_span] in Heq.
  subst run. eexists. cbn [fst snd tracer log listeners started with_tracer
                             with_log with_listeners set_current record_span
                             span_name span_kind parentSpanId traceId].
  rewrite Hlisteners. repeat split; try reflexivity.
  by rewrite <- !app_assoc.
Qed.

End IncomingPaths.

(** ** Finishing the span of an incoming request *)

Lemma restore_end_removes (res : nat) (ls : list Listener) :
  Forall (fun l => same_wrapper res l = false)
    (List.filter (fun l => negb (same_wrapper res l)) ls).
Proof.
  induction ls as [|l ls IH]; [constructor|].
  cbn [List.filter]. destruct (same_wrapper res l) eqn:Hl; cbn [negb].
  - exact IH.
  - by constructor.
Qed.

Section IncomingEnd.

Context (rt : Runtime).

(** X13: the function put in place of [response.end] first puts the
    original function back and calls it, and only then writes to the span:
    six distinct attributes, the status the classifier gives for the status
    code of the response, one message event, and one [end()]. Once it has
    run, no wrapper is left on that response. *)
Theorem wrappedEnd_finishes (request : IncomingMessage)
    (response : ServerResponse) (rootSpan : Span) (requestUrl : Url)
    (w : World) :
  url_parse rt (Js.or_else (im_url request) "localhost") = Got requestUrl ->
  exists new,
    wrappedEnd rt request response rootSpan w
      = (Ret tt,
         {| tracer := tracer w;
            log := log w ++ CallOriginalEnd (sr_id response) :: new;
            store := store w;
            listeners :=
              List.filter (fun l => negb (same_wrapper (sr_id response) l))
                (listeners w);
            next_request := next_request w;
            uuids := S (uuids w) |})
    /\ Forall (fun l => same_wrapper (sr_id response) l = false)
         (List.filter (fun l => negb (same_wrapper (sr_id response) l))
            (listeners w))
    /\ attribute_keys (spanId rootSpan) new
       = [ATTRIBUTE_HTTP_HOST; ATTRIBUTE_HTTP_METHOD; ATTRIBUTE_HTTP_PATH;
          ATTRIBUTE_HTTP_ROUTE; ATTRIBUTE_HTTP_USER_AGENT;
          ATTRIBUTE_HTTP_STATUS_CODE]
    /\ statuses (spanId rootSpan) new
       = [status_number (convertTraceStatus (sr_statusCode response))]
    /\ ends (spanId rootSpan) new = 1%nat
    /\ last new = Some (SpanEnd (spanId rootSpan)).
Proof.
  intros Hparse. eexists. split; [|split; [apply restore_end_removes|]].
  - unfold wrappedEnd, bind, restore_end, effect, addAttribute, effect,
      message_event_id, read.
    rewrite Hparse. cbn [fst snd log with_log with_listeners ret tracer store
                           listeners next_request uuids].
    f_equal. f_equal. rewrite <- !app_assoc. reflexivity.
  - cbn. rewrite Nat.eqb_refl. by repeat split.
Qed.

(** X14: when [url.parse] raises in the function put in place of
    [response.end], the original function has been put back and called, the
    error leaves the call, nothing is written to the span and the span is
    not ended. *)
Theorem wrappedEnd_parse_error (request : IncomingMessage)
    (response : ServerResponse) (rootSpan : Span) (w : World) :
  url_parse rt (Js.or_else (im_url request) "localhost") = Raises ->
  wrappedEnd rt request response rootSpan w
    = (Throw Raised,
       with_log (log w ++ [CallOriginalEnd (sr_id response)])
         (with_listeners
            (List.filter (fun l => negb (same_wrapper (sr_id response) l))
               (listeners w)) w))
  /\ ends (spanId rootSpan) (log (wrappedEnd rt request response rootSpan w).2)
     = ends (spanId rootSpan) (log w).
Proof.
  intros Hparse.
  assert (wrappedEnd rt request response rootSpan w
          = (Throw Raised,
             with_log (log w ++ [CallOriginalEnd (sr_id response)])
               (with_listeners
                  (List.filter (fun l => negb (same_wrapper (sr_id response) l))
                     (listeners w)) w))) as Hrun.
  { unfold wrappedEnd, bind, restore_end, effect, read. by rewrite Hparse. }
  split; [exact Hrun|]. rewrite Hrun. cbn [snd log with_log with_listeners].
  rewrite ends_app. cbn. lia.
Qed.

End IncomingEnd.

(** ** What the ['end'] listener of an outgoing request records *)

Section OutgoingEnd.

Context (rt : Runtime).

(** X15: the ['end'] listener of an outgoing request gives the span the
    same text as path and as route, the [path] of the options; the method of
    the response, GET by default; the status code of the response as text
    and the status the classifier gives for it (for 0 when the response has
    none); and as host the [host] of the options, their [hostname] when
    [host] is falsy, and no host attribute when both are. *)
Theorem onEnd_attributes (response : IncomingMessage) (span : Span) (l : loc)
    (o : RequestOptions) (h p : MaybeStr) (w : World) :
  store w !! l = Some o ->
  host o = Got h ->
  path o = Got p ->
  exists new,
    (onEnd rt response span l w).1 = Ret tt
    /\ log (onEnd rt response span l w).2 = log w ++ new
    /\ attribute_writes (spanId span) ATTRIBUTE_HTTP_PATH new
       = [Str (Js.template p)]
    /\ attribute_writes (spanId span) ATTRIBUTE_HTTP_ROUTE new
       = [Str (Js.template p)]
    /\ attribute_writes (spanId span) ATTRIBUTE_HTTP_METHOD new
       = [Str (Js.or_else (im_method response) "GET")]
    /\ attribute_writes (spanId span) ATTRIBUTE_HTTP_STATUS_CODE new
       = [Str (match im_statusCode response with
               | Some c => pretty c
               | None => "undefined"
               end)]
    /\ attribute_writes (spanId span) ATTRIBUTE_HTTP_HOST new
       = (if Js.truthy h then [Str (Js.template h)]
          else if Js.truthy (hostname o) then [Str (Js.template (hostname o))]
          else [])
    /\ statuses (spanId span) new
       = [status_number
            (convertTraceStatus (default 0 (im_statusCode response)))].
Proof.
  intros Hl Hh Hp.
  remember (onEnd rt response span l w) as run eqn:Hrun.
  unfold onEnd in Hrun. unfold bind at 1, load in Hrun. rewrite Hl in Hrun.
  rewrite Hh, Hp in Hrun.
  unfold bind, read, ret, addAttribute, effect, message_event_id in Hrun.
  destruct (Js.truthy h); destruct (Js.truthy (hostname o));
    cbn [orb] in Hrun;
    destruct (Js.header_truthy _);
    subst run; cbn [fst snd log listeners store with_log];
    (eexists; split; [reflexivity|]; split;
     [rewrite <- !app_assoc; reflexivity
     |cbn; rewrite Nat.eqb_refl; by repeat split]).
Qed.

End OutgoingEnd.

(** ** The URL the rules for outgoing requests see *)

Section OutgoingUrl.

Context (rt : Runtime) (plugin : HttpPlugin).

Lemma resolve_target_plain (l : loc) (o : RequestOptions) (pn : MaybeStr)
    (s : string) (parsed : Url) (m pr h : MaybeStr) (w : World) :
  store w !! l = Some o ->
  has_marker o = false ->
  pathname o = Got pn ->
  Js.or_else pn "" = "" ->
  path o = Got (Str s) ->
  url_parse rt s = Got parsed ->
  method o = Got m ->
  protocol o = Got pr ->
  host o = Got h ->
  resolve_target rt (ArgObject l) w
    = (Ret (Some (l, Js.or_else (u_pathname parsed) "", Js.or_else m "GET",
                  Js.or_else pr "http:" +:+ "//" +:+ Js.template h)), w).
Proof.
  intros Hl Hmarker Hpn Hempty Hpath Hparse Hm Hpr Hh.
  unfold resolve_target. cbn [falsy_arg]. unfold bind at 1, load.
  rewrite Hl, Hmarker. unfold try_catch, bind at 1, readUrlFields.
  unfold bind, read, ret. rewrite Hpn, Hempty. cbn [String.length Nat.eqb].
  rewrite Hpath, Hparse, Hm, Hpr, Hh. reflexivity.
Qed.

(** X16: for an options object without pathname, a predicate rule is called
    with the protocol ('http:' by default), '//', the host as text and the
    pathname of the parsed [path], and with the request the original
    function has just made; the request is left untraced exactly when the
    predicate answers true. *)
Theorem outgoing_predicate_sees (l : loc) (o : RequestOptions) (pn : MaybeStr)
    (s : string) (parsed : Url) (m pr h : MaybeStr)
    (f : MaybeStr -> ClientRequest -> bool) (w : World) :
  ignoreOutgoingUrls (plugin_options plugin) = Some [PFunction f] ->
  store w !! l = Some o ->
  has_marker o = false ->
  pathname o = Got pn ->
  Js.or_else pn "" = "" ->
  path o = Got (Str s) ->
  url_parse rt s = Got parsed ->
  method o = Got m ->
  protocol o = Got pr ->
  host o = Got h ->
  f (Str ((Js.or_else pr "http:" +:+ "//" +:+ Js.template h)
            +:+ Js.or_else (u_pathname parsed) ""))
    (next_request w) = true
  <-> started (tracer (outgoingRequest rt plugin (ArgObject l) w).2)
      = started (tracer w).
Proof.
  intros Hlist Hl Hmarker Hpn Hempty Hpath Hparse Hm Hpr Hh.
  unfold outgoingRequest, bind.
  rewrite (resolve_target_plain l o pn s parsed m pr h w) by assumption.
  set (url := Str ((Js.or_else pr "http:" +:+ "//" +:+ Js.template h)
                     +:+ Js.or_else (u_pathname parsed) "")).
  assert (isIgnored url (next_request w)
            (ignoreOutgoingUrls (plugin_options plugin))
            (passed_on (ArgObject l) w)
          = (Ret (f url (next_request w)),
             with_log (log (passed_on (ArgObject l) w) ++ [EvalPattern 0])
               (passed_on (ArgObject l) w))) as Hrun.
  { rewrite Hlist. unfold isIgnored. cbn [isIgnored_from].
    unfold bind at 1. rewrite effect_run. unfold bind, lift.
    cbn [isSatisfyPattern]. by destruct (f url (next_request w)). }
  destruct (f url (next_request w)) eqn:Hf.
  - split; [intros _|reflexivity].
    by rewrite (trace_outgoing_settled plugin (ArgObject l) l _ _ _ w _ _ Hrun).
  - split; [discriminate|]. intros Hsame.
    destruct (trace_outgoing_span plugin (ArgObject l) l
                (Js.or_else (u_pathname parsed) "") (Js.or_else m "GET")
                (Js.or_else pr "http:" +:+ "//" +:+ Js.template h) w _ Hrun)
      as (sp & Hstarted & _).
    rewrite Hstarted in Hsame. apply (f_equal List.length) in Hsame.
    rewrite length_app in Hsame. cbn in Hsame. lia.
Qed.

Lemma falsy_arg_string (s : string) : s <> "" -> falsy_arg (ArgString s) = false.
Proof. intros Hs. cbn. by destruct (String.eqb_spec s ""). Qed.

(** X18: for a URL given as a string, a predicate rule is called with the
    protocol of the parsed URL ('http:' by default), '//', its host as text
    and its pathname ('/' by default), and with the request the original
    function has just made; the request is left untraced exactly when the
    predicate answers true. *)
Theorem outgoing_predicate_sees_string (s : string) (parsed : Url)
    (f : MaybeStr -> ClientRequest -> bool) (w : World) :
  ignoreOutgoingUrls (plugin_options plugin) = Some [PFunction f] ->
  s <> "" ->
  url_parse rt s = Got parsed ->
  f (Str ((Js.or_else (u_protocol parsed) "http:" +:+ "//"
             +:+ Js.template (u_host parsed))
            +:+ Js.or_else (u_pathname parsed) "/"))
    (next_request w) = true
  <-> started (tracer (outgoingRequest rt plugin (ArgString s) w).2)
      = started (tracer w).
Proof.
  intros Hlist Hs Hparse.
  unfold outgoingRequest, bind at 1, resolve_target.
  rewrite (falsy_arg_string s Hs). unfold bind at 1, read. rewrite Hparse.
  unfold ret at 1. unfold bind at 1, alloc. unfold ret at 1.
  set (w0 := with_store _ w).
  set (url := Str ((Js.or_else (u_protocol parsed) "http:" +:+ "//"
                      +:+ Js.template (u_host parsed))
                     +:+ Js.or_else (u_pathname parsed) "/")).
  change (next_request w) with (next_request w0).
  change (tracer w) with (tracer w0).
  assert (isIgnored url (next_request w0)
            (ignoreOutgoingUrls (plugin_options plugin))
            (passed_on (ArgString s) w0)
          = (Ret (f url (next_request w0)),
             with_log (log (passed_on (ArgString s) w0) ++ [EvalPattern 0])
               (passed_on (ArgString s) w0))) as Hrun.
  { rewrite Hlist. unfold isIgnored. cbn [isIgnored_from].
    unfold bind at 1. rewrite effect_run. unfold bind, lift.
    cbn [isSatisfyPattern]. by destruct (f url (next_request w0)). }
  destruct (f url (next_request w0)) eqn:Hf.
  - split; [intros _|reflexivity].
    by rewrite (trace_outgoing_settled plugin (ArgString s) _ _ _ _ w0 _ _ Hrun).
  - split; [discriminate|]. intros Hsame.
    destruct (trace_outgoing_span plugin (ArgString s)
                (fresh (dom (store w)))
                (Js.or_else (u_pathname parsed) "/") "GET"
                (Js.or_else (u_protocol parsed) "http:" +:+ "//"
                   +:+ Js.template (u_host parsed)) w0 _ Hrun)
      as (sp & Hstarted & _).
    rewrite Hstarted in Hsame. apply (f_equal List.length) in Hsame.
    rewrite length_app in Hsame. cbn in Hsame. lia.
Qed.

(** X19: the [try] block guards options objects only. For a URL string
    that [url.parse] rejects, the wrapper raises the error at once: the
    original function is not called and nothing else happens. *)
Theorem outgoingRequest_string_parse_error (s : string) (w : World) :
  s <> "" ->
  url_parse rt s = Raises ->
  outgoingRequest rt plugin (ArgString s) w = (Throw Raised, w).
Proof.
  intros Hs Hparse. unfold outgoingRequest, bind at 1, resolve_target.
  rewrite (falsy_arg_string s Hs). unfold bind at 1, read.
  by rewrite Hparse.
Qed.

End OutgoingUrl.

(** ** The status a span is left with *)

Lemma statuses_app (span : nat) (l1 l2 : list Effect) :
  statuses span (l1 ++ l2) = statuses span l1 ++ statuses span l2.
Proof.
  induction l1 as [|e l1 IH]; [reflexivity|].
  destruct e; simpl; try exact IH.
  destruct (Nat.eqb _ _); simpl; by rewrite IH.
Qed.

Section LastStatus.

Context (rt : Runtime) (req : ClientRequest) (span : Span) (l : loc)
  (o : RequestOptions) (response : IncomingMessage).

Lemma appends_some_after_skip (P : list Effect -> Prop) (c : M unit)
    (w : World) :
  appends_some P c w -> appends_some P (ret tt;; c) w.
Proof. intros Hc. exact Hc. Qed.

Lemma appends_some_before_skips (P : list Effect -> Prop) (c k : M unit)
    (w : World) :
  (forall w', k w' = (Ret tt, w')) ->
  appends_some P c w -> appends_some P (c;; k) w.
Proof.
  intros Hk (new & (Hret & Hlog & Hlis & Hstore) & HP).
  exists new. split; [|exact HP]. unfold appends, bind.
  destruct (c w) as [[[]|e] w1]; simpl in *; try discriminate.
  rewrite Hk. by repeat split.
Qed.

Lemma onError_status (error : Error) (w : World) :
  appends_some (fun new => statuses (spanId span) new = [CanonicalCode_UNKNOWN])
    (onError span error) w.
Proof.
  eexists. split.
  - unfold appends, onError, bind, addAttribute, effect.
    cbn [fst snd log listeners store with_log].
    split; [reflexivity|]. split; [|by split].
    rewrite <- !app_assoc. reflexivity.
  - cbn. by rewrite Nat.eqb_refl.
Qed.

Lemma onEnd_status (w : World) :
  store w !! l = Some o ->
  is_got (host o) = true ->
  is_got (path o) = true ->
  appends_some
    (fun new => statuses (spanId span) new
                = [status_number
                     (convertTraceStatus (default 0 (im_statusCode response)))])
    (onEnd rt response span l) w.
Proof.
  intros Hl Hhost Hpath.
  destruct (host o) as [h|] eqn:Hh; [|discriminate].
  destruct (path o) as [p|] eqn:Hp; [|discriminate].
  unfold appends_some, appends.
  remember (onEnd rt response span l w) as run eqn:Hrun.
  unfold onEnd in Hrun. unfold bind at 1, load in Hrun. rewrite Hl in Hrun.
  rewrite Hh, Hp in Hrun.
  unfold bind, read, ret, addAttribute, effect, message_event_id in Hrun.
  destruct (Js.truthy h || Js.truthy (hostname o));
    destruct (Js.truthy h);
    destruct (Js.header_truthy _);
    subst run; cbn [fst snd log listeners store with_log];
    (eexists; split;
     [split; [reflexivity|]; split; [|by split];
      rewrite <- !app_assoc; reflexivity
     |cbn; by rewrite Nat.eqb_refl]).
Qed.

Lemma emit_terminal_status (sig : Signal) (w : World) :
  listeners w = responded_listeners req span l response ->
  store w !! l = Some o ->
  is_got (host o) = true ->
  is_got (path o) = true ->
  terminal req response sig = true ->
  appends_some
    (fun new => statuses (spanId span) new = [signal_status response sig])
    (emit rt sig) w.
Proof.
  intros Hlisteners Hl Hhost Hpath Hterminal.
  cut (appends_some
         (fun new => statuses (spanId span) new = [signal_status response sig])
         (run_listeners rt sig (responded_listeners req span l response)) w).
  { unfold appends_some, appends, emit. by rewrite Hlisteners. }
  destruct sig as [r resp|r error|id|id error]; cbn [terminal] in Hterminal;
    [discriminate| | |];
    cbn [responded_listeners armed_listeners app run_listeners react
           signal_status];
    rewrite Hterminal.
  - apply appends_some_after_skip, appends_some_before_skips;
      [reflexivity|apply onError_status].
  - do 2 apply appends_some_after_skip.
    apply appends_some_before_skips; [reflexivity|].
    by apply onEnd_status.
  - do 3 apply appends_some_after_skip.
    apply appends_some_before_skips; [reflexivity|apply onError_status].
Qed.

Lemma deliver_terminal_statuses (post : list Signal) :
  forall w : World,
    listeners w = responded_listeners req span l response ->
    store w !! l = Some o ->
    is_got (host o) = true ->
    is_got (path o) = true ->
    forallb (terminal req response) post = true ->
    statuses (spanId span) (log (deliver rt post w).2)
      = statuses (spanId span) (log w) ++ map (signal_status response) post.
Proof.
  induction post as [|sig post IH]; intros w Hlisteners Hl Hhost Hpath Hpost.
  - cbn. by rewrite app_nil_r.
  - cbn [forallb] in Hpost. apply andb_prop in Hpost as [Hsig Hpost].
    destruct (emit_terminal_status sig w Hlisteners Hl Hhost Hpath Hsig)
      as (new & (Hret & Hlog & Hlis & Hstore) & Hstatus).
    cbn [deliver]. unfold bind.
    destruct (emit rt sig w) as [[[]|e] w1]; simpl in Hret, Hlog, Hlis, Hstore;
      [|discriminate].
    rewrite IH; try assumption; try congruence.
    rewrite Hlog, statuses_app, Hstatus. cbn [map].
    by rewrite <- app_assoc.
Qed.

End LastStatus.

(** X17: each terminal signal sets the status of the span anew, so that the
    span is left with the status of the last one: UNKNOWN when an error
    follows the end of the response, whatever the status code was. *)
Theorem span_status_of_last_signal (rt : Runtime) (req : ClientRequest)
    (span : Span) (l : loc) (o : RequestOptions) (response : IncomingMessage)
    (post : list Signal) (w : World) :
  listeners w = armed_listeners req span l ->
  store w !! l = Some o ->
  is_got (host o) = true ->
  is_got (path o) = true ->
  forallb (terminal req response) post = true ->
  statuses (spanId span)
    (log (deliver rt (EmitResponse req response :: post) w).2)
  = statuses (spanId span) (log w) ++ map (signal_status response) post.
Proof.
  intros Hlisteners Hl Hhost Hpath Hpost.
  cbn [deliver]. unfold bind.
  rewrite (emit_response_armed rt req span l response w Hlisteners).
  rewrite (deliver_terminal_statuses rt req span l o response post);
    try assumption; try reflexivity.
  cbn [log with_listeners with_log]. rewrite statuses_app. cbn [statuses].
  by rewrite app_nil_r.
Qed.

(** ** The server's [emit] behind the wrapper *)

Lemma emitted_app (l1 l2 : list Effect) :
  emitted (l1 ++ l2) = emitted l1 ++ emitted l2.
Proof.
  induction l1 as [|e l1 IH]; [reflexivity|].
  destruct e; simpl; try exact IH. by rewrite IH.
Qed.

Lemma emitted_EvalPattern (l : list nat) : emitted (EvalPattern <$> l) = [].
Proof. induction l as [|i l IH]; [reflexivity|exact IH]. Qed.

Lemma isIgnored_log {T} (url : MaybeStr) (request : T)
    (list : option (list (IgnoreMatcher T))) (w : World) :
  exists n,
    (isIgnored url request list w).2
      = with_log (log w ++ (EvalPattern <$> seq 0 n)) w.
Proof.
  unfold isIgnored. destruct list as [L|].
  - rewrite isIgnored_from_first.
    destruct (list_find _ L) as [[k p]|]; by eexists.
  - exists 0%nat. cbn. by rewrite app_nil_r, with_log_same.
Qed.

Section IncomingTransparent.

Context (rt : Runtime) (plugin : HttpPlugin).

(** X20: the wrapper around the server's [emit] is transparent when it
    returns: it returns what the original [emit] returns for the event and
    has called it once. When it raises (the URL of the request cannot be
    parsed, or a rule is of no recognized kind) the original [emit] has not
    been called: the application does not see the request. *)
Theorem incomingRequest_transparent (event : string)
    (request : IncomingMessage) (response : ServerResponse) (w : World) :
  (forall b,
     (incomingRequest rt plugin event request response w).1 = Ret b ->
     b = original_emit rt event
     /\ emitted (log (incomingRequest rt plugin event request response w).2)
        = emitted (log w) ++ [event])
  /\ (forall e,
        (incomingRequest rt plugin event request response w).1 = Throw e ->
        emitted (log (incomingRequest rt plugin event request response w).2)
          = emitted (log w)).
Proof.
  remember (incomingRequest rt plugin event request response w) as run eqn:Hrun.
  unfold incomingRequest in Hrun.
  destruct (negb (String.eqb event "request")).
  { subst run. cbn [call_emit]. rewrite call_emit_run. cbn [fst snd log with_log].
    rewrite emitted_app. split; [by intros b [= <-]|discriminate]. }
  unfold bind at 1 in Hrun.
  assert (exists r, (match im_url request with
                     | Str u => read (url_parse rt u)
                     | _ => throw Raised
                     end) w = (r, w)) as [r Hparse].
  { destruct (im_url request) as [| |u]; try (by eexists).
    unfold read. destruct (url_parse rt u); by eexists. }
  rewrite Hparse in Hrun.
  destruct r as [parsed|e0];
    [|subst run; split; [discriminate|reflexivity]].
  unfold bind at 1 in Hrun.
  destruct (isIgnored_log (u_pathname parsed) request
              (ignoreIncomingPaths (plugin_options plugin)) w) as [n Hlog].
  destruct (isIgnored (u_pathname parsed) request
              (ignoreIncomingPaths (plugin_options plugin)) w)
    as [[ignored|e0] w1]; cbn [snd] in Hlog; subst w1.
  2:{ subst run. cbn [fst snd log with_log].
      rewrite emitted_app, emitted_EvalPattern, app_nil_r.
      split; [discriminate|reflexivity]. }
  destruct ignored.
  { subst run. rewrite call_emit_run. cbn [fst snd log with_log].
    rewrite !emitted_app, emitted_EvalPattern, app_nil_r.
    split; [by intros b [= <-]|discriminate]. }
  unfold bind at 1, get_tracer, createSpan in Hrun.
  destruct (createSpanWithNet (plugin_options plugin)).
  - unfold bind at 1, startChildSpan in Hrun. cbn [tracer with_log] in Hrun.
    destruct (currentRootSpan (tracer w)) as [root|].
    + unfold bind, effect, register, call_emit, bind, effect, ret in Hrun.
      subst run. cbn [fst snd log with_log with_tracer with_listeners].
      rewrite !emitted_app, emitted_EvalPattern. cbn [emitted].
      rewrite !app_nil_r. split; [by intros b [= <-]|discriminate].
    + rewrite call_emit_run in Hrun. subst run. cbn [fst snd log with_log].
      rewrite !emitted_app, emitted_EvalPattern, app_nil_r.
      split; [by intros b [= <-]|discriminate].
  - unfold startRootSpan in Hrun.
    unfold bind, effect, register, call_emit, bind, effect, ret in Hrun.
    cbn [fst snd tracer log listeners with_tracer with_log with_listeners] in Hrun.
    subst run. cbn [fst snd log with_log with_tracer with_listeners].
    rewrite !emitted_app, emitted_EvalPattern. cbn [emitted].
    rewrite !app_nil_r. split; [by intros b [= <-]|discriminate].
Qed.

End IncomingTransparent.

(** ** Requests with an Expect header *)

Lemma live_headers_app (l1 l2 : list Effect) :
  live_headers (l1 ++ l2) = live_headers l1 ++ live_headers l2.
Proof.
  induction l1 as [|e l1 IH]; [reflexivity|].
  destruct e; simpl; try exact IH. by rewrite IH.
Qed.

Lemma live_headers_EvalPattern (l : list nat) :
  live_headers (EvalPattern <$> l) = [].
Proof. induction l as [|i l IH]; [reflexivity|exact IH]. Qed.

(** Under a truthy Expect header the setter sets nothing on the live
    request, and the object the variable refers to afterwards has a truthy
    Expect header again. *)
Lemma setHeader_expect (request : ClientRequest) (v : loc)
    (name value : string) (ov : RequestOptions) (w : World) :
  store w !! v = Some ov ->
  hasExpectHeader ov = true ->
  keeps_expect (name, value) ->
  live_headers (log (setHeader request v name value w).2)
    = live_headers (log w)
  /\ (forall v',
        (setHeader request v name value w).1 = Ret v' ->
        exists ov',
          store (setHeader request v name value w).2 !! v' = Some ov'
          /\ hasExpectHeader ov' = true).
Proof.
  intros Hv Hexpect Hkeeps.
  remember (setHeader request v name value w) as run eqn:Hrun.
  unfold setHeader in Hrun. unfold bind at 1, load in Hrun.
  rewrite Hv, Hexpect in Hrun.
  unfold hasExpectHeader in Hexpect.
  destruct (headers ov) as [h|] eqn:Hh; [|discriminate].
  pose proof (expect_written h (name, value) Hexpect Hkeeps) as Hwritten.
  cbn [fst snd] in Hwritten.
  destruct (__cloned ov); cbn [negb] in Hrun.
  - unfold bind at 1, ret in Hrun. unfold bind at 1, load in Hrun.
    rewrite Hv, Hh in Hrun.
    unfold bind, save, ret in Hrun. subst run.
    cbn [fst snd store log with_store].
    split; [reflexivity|]. intros v' [= <-]. eexists.
    split; [apply lookup_insert_eq|].
    unfold hasExpectHeader. cbn [headers set_headers]. exact Hwritten.
  - unfold bind at 1 in Hrun. unfold bind at 1, Object_assign in Hrun.
    destruct (readable ov);
      [|subst run; split; [reflexivity|discriminate]].
    unfold ret at 1 in Hrun. unfold bind at 1, alloc in Hrun.
    unfold bind at 1 in Hrun. rewrite effect_run in Hrun.
    unfold ret at 1 in Hrun. unfold bind at 1, load in Hrun.
    cbn [store with_store with_log] in Hrun.
    rewrite lookup_insert_eq in Hrun.
    cbn [headers set_cloned set_headers] in Hrun. rewrite Hh in Hrun.
    unfold bind, save, ret in Hrun. subst run.
    cbn [fst snd store log with_store with_log].
    split.
    + rewrite live_headers_app. cbn [live_headers]. by rewrite app_nil_r.
    + intros v' [= <-]. eexists. split; [apply lookup_insert_eq|].
      unfold hasExpectHeader. cbn [headers set_headers]. exact Hwritten.
Qed.

Lemma inject_expect (request : ClientRequest) (hs : list (string * string)) :
  Forall keeps_expect hs ->
  forall (v : loc) (ov : RequestOptions) (w : World),
    store w !! v = Some ov ->
    hasExpectHeader ov = true ->
    live_headers (log (inject request v hs w).2) = live_headers (log w).
Proof.
  induction 1 as [|nv hs Hnv _ IH]; intros v ov w Hv Hexpect; [reflexivity|].
  cbn [inject]. unfold bind.
  assert (keeps_expect (nv.1, nv.2)) as Hnv' by exact Hnv.
  destruct (setHeader_expect request v nv.1 nv.2 ov w Hv Hexpect Hnv')
    as [Hlive Hvar].
  destruct (setHeader request v nv.1 nv.2 w) as [[v'|e] w1];
    cbn [fst snd] in Hlive, Hvar; [|exact Hlive].
  destruct (Hvar v' eq_refl) as (ov' & Hv' & Hexpect').
  by rewrite (IH v' ov' w1 Hv' Hexpect').
Qed.

Lemma makeRequestTrace_expect (request : ClientRequest) (v : loc)
    (span : option Span) (ov : RequestOptions) (w : World) :
  store w !! v = Some ov ->
  hasExpectHeader ov = true ->
  (forall format context,
     propagation (tracer w) = Some format ->
     Forall keeps_expect (prop_inject format context)) ->
  live_headers (log (makeRequestTrace request v span w).2)
    = live_headers (log w).
Proof.
  intros Hv Hexpect Hformat. unfold makeRequestTrace.
  destruct span as [span|]; [|reflexivity].
  unfold bind at 1, get_tracer. unfold bind at 1.
  set (c := match propagation (tracer w) with
            | Some format =>
                inject request v (prop_inject format (spanContext span))
            | None => ret v
            end).
  assert (live_headers (log (c w).2) = live_headers (log w)) as Hlive.
  { unfold c. destruct (propagation (tracer w)) as [format|] eqn:Hp;
      [|reflexivity].
    apply (inject_expect request _ (Hformat format _ eq_refl) v ov w Hv Hexpect). }
  destruct (c w) as [[v'|e] w1]; cbn [snd] in Hlive; exact Hlive.
Qed.

Section OutgoingExpect.

Context (rt : Runtime) (plugin : HttpPlugin).

Lemma trace_outgoing_expect (arg : OutgoingArg) (v : loc)
    (pathname method origin : string) (ov : RequestOptions) (w : World) :
  store w !! v = Some ov ->
  hasExpectHeader ov = true ->
  (forall format context,
     propagation (tracer w) = Some format ->
     Forall keeps_expect (prop_inject format context)) ->
  live_headers (log (trace_outgoing plugin arg v pathname method origin w).2)
    = live_headers (log w).
Proof.
  intros Hv Hexpect Hformat.
  destruct (isIgnored (Str (origin +:+ pathname)) (next_request w)
              (ignoreOutgoingUrls (plugin_options plugin)) (passed_on arg w))
    as [out w2] eqn:Hrun.
  destruct (isIgnored_log (Str (origin +:+ pathname)) (next_request w)
              (ignoreOutgoingUrls (plugin_options plugin)) (passed_on arg w))
    as [n Hw2].
  rewrite Hrun in Hw2. cbn [snd] in Hw2.
  assert (live_headers (log w2) = live_headers (log w)) as Hlive.
  { rewrite Hw2, log_with_log, log_passed_on, !live_headers_app,
      live_headers_EvalPattern. cbn [live_headers]. by rewrite !app_nil_r. }
  assert (store w2 = store w /\ tracer w2 = tracer w) as [Hstore Htracer]
    by (by rewrite Hw2).
  assert (out <> Ret false ->
          live_headers
            (log (trace_outgoing plugin arg v pathname method origin w).2)
            = live_headers (log w)) as Hsettled.
  { intros Hout.
    by rewrite (trace_outgoing_settled plugin arg v pathname method origin
                  w w2 out Hrun Hout). }
  destruct out as [[|]|e]; [by apply Hsettled| |by apply Hsettled].
  rewrite (trace_outgoing_unfold plugin arg v pathname method origin w w2 Hrun).
  destruct (currentRootSpan (tracer w2)) as [root|] eqn:Hroot.
  - unfold bind, startChildSpan. cbn [tracer with_log]. rewrite Hroot.
    rewrite (makeRequestTrace_expect _ v _ ov).
    + cbn [log with_tracer with_log]. rewrite live_headers_app.
      cbn [live_headers]. by rewrite app_nil_r.
    + cbn [store with_tracer with_log]. by rewrite Hstore.
    + exact Hexpect.
    + cbn [tracer with_tracer propagation record_span]. rewrite Htracer.
      exact Hformat.
  - unfold startRootSpan.
    match goal with
    | |- context [makeRequestTrace ?r ?x ?s ?w0] =>
        pose proof (makeRequestTrace_expect r x s ov w0) as Hmake;
        destruct (makeRequestTrace r x s w0) as [res w4]
    end.
    cbn [snd log with_tracer]. cbn [snd] in Hmake. rewrite Hmake.
    + cbn [log with_tracer with_log]. rewrite live_headers_app.
      cbn [live_headers]. by rewrite app_nil_r.
    + cbn [store with_tracer with_log]. by rewrite Hstore.
    + exact Hexpect.
    + cbn [tracer with_tracer with_log propagation set_current record_span].
      rewrite Htracer. exact Hformat.
Qed.

(** X21: a request whose options carry a truthy Expect header never gets a
    header set on it by the wrapper, whatever the rules, the tracer and the
    outcome of the call, as long as the propagation format does not write
    an empty Expect header itself. *)
Theorem outgoingRequest_expect_sets_no_header (l : loc) (o : RequestOptions)
    (w : World) :
  store w !! l = Some o ->
  hasExpectHeader o = true ->
  (forall format context,
     propagation (tracer w) = Some format ->
     Forall keeps_expect (prop_inject format context)) ->
  live_headers (log (outgoingRequest rt plugin (ArgObject l) w).2)
    = live_headers (log w).
Proof.
  intros Hl Hexpect Hformat.
  assert (live_headers (log (call_original (ArgObject l) w).2)
            = live_headers (log w)) as Hpassed.
  { change (call_original (ArgObject l) w)
      with (Ret (next_request w), passed_on (ArgObject l) w).
    cbn [snd]. rewrite log_passed_on, live_headers_app.
    cbn [live_headers]. by rewrite app_nil_r. }
  unfold outgoingRequest. unfold bind at 1.
  unfold resolve_target. cbn [falsy_arg]. unfold bind at 1, load. rewrite Hl.
  destruct (has_marker o); [exact Hpassed|].
  unfold try_catch, bind.
  pose proof (readUrlFields_pure rt o w) as Hpure.
  destruct (readUrlFields rt o w) as [[f|e] w1]; cbn [snd] in Hpure; subst w1.
  - unfold ret. by apply (trace_outgoing_expect _ l _ _ _ o).
  - exact Hpassed.
Qed.

End OutgoingExpect.

(** ** The further properties on sample data *)

Lemma outgoingRequest_ignored_witness :
  (outgoingRequest Sample.rt (Sample.plugin false) (ArgObject 0%nat)
     (Sample.world Sample.tracer0 Fixture.ignored_options)).1 = Ret 0%nat
  /\ tracer (outgoingRequest Sample.rt (Sample.plugin false) (ArgObject 0%nat)
               (Sample.world Sample.tracer0 Fixture.ignored_options)).2
     = Sample.tracer0.
Proof.
  destruct (outgoingRequest_ignored Sample.rt (Sample.plugin false)
              (ArgObject 0%nat)
              (Sample.world Sample.tracer0 Fixture.ignored_options)
              (Sample.world Sample.tracer0 Fixture.ignored_options)
              0%nat "/ignored/string" "GET" "http://fake.service.io"
              [PString "http://fake.service.io/ignored/string"] 0%nat
              (PString "http://fake.service.io/ignored/string"))
    as (Hret & _ & Htracer & _).
  - vm_compute. reflexivity.
  - reflexivity.
  - vm_compute. reflexivity.
  - vm_compute. reflexivity.
  - split; [exact Hret|exact Htracer].
Defined.

Lemma outgoingRequest_rule_error_witness :
  (outgoingRequest Sample.rt (Fixture.plugin_with [POther (ONumber 42)])
     (ArgObject 0%nat)
     (Sample.world Sample.tracer0 (Sample.options0 None))).1
  = Throw (TypeError "Pattern is in unsupported datatype")
  /\ log (outgoingRequest Sample.rt (Fixture.plugin_with [POther (ONumber 42)])
            (ArgObject 0%nat)
            (Sample.world Sample.tracer0 (Sample.options0 None))).2
     = [CallOriginal (ArgObject 0%nat) 0%nat; EvalPattern 0].
Proof.
  destruct (outgoingRequest_rule_error Sample.rt
              (Fixture.plugin_with [POther (ONumber 42)]) (ArgObject 0%nat)
              (Sample.world Sample.tracer0 (Sample.options0 None))
              (Sample.world Sample.tracer0 (Sample.options0 None))
              0%nat "/test" "GET" "http://fake.service.io"
              [POther (ONumber 42)] 0%nat (POther (ONumber 42)))
    as (Hret & Hlog & _).
  - vm_compute. reflexivity.
  - reflexivity.
  - vm_compute. reflexivity.
  - reflexivity.
  - split; [exact Hret|exact Hlog].
Defined.

Lemma outgoingRequest_keeps_options_witness :
  store (outgoingRequest Sample.rt (Sample.plugin false) (ArgObject 0%nat)
           (Sample.world Fixture.tracer_b3
              (Sample.options0 (Some Sample.expect)))).2 !! 0%nat
  = Some (Sample.options0 (Some Sample.expect)).
Proof.
  apply (outgoingRequest_keeps_options Sample.rt (Sample.plugin false)
           (ArgObject 0%nat)
           (Sample.world Fixture.tracer_b3 (Sample.options0 (Some Sample.expect)))
           0%nat (Sample.options0 (Some Sample.expect))).
  - vm_compute. reflexivity.
  - intros _ _. reflexivity.
Defined.

Lemma makeRequestTrace_live_witness :
  log (makeRequestTrace 5%nat 0%nat (Some Fixture.get_span)
         (Sample.world Fixture.tracer_b3 (Sample.options0 None))).2
  = [SetHeader 5%nat "x-b3-traceid" "0"; SetHeader 5%nat "x-b3-spanid" "0"].
Proof.
  rewrite (makeRequestTrace_live 5%nat 0%nat (Sample.options0 None)
             Fixture.get_span
             (Sample.world Fixture.tracer_b3 (Sample.options0 None))).
  - vm_compute. reflexivity.
  - vm_compute. reflexivity.
  - reflexivity.
Defined.

Lemma incomingRequest_root_span_witness :
  exists root,
    parentSpanId root = None
    /\ started (tracer (incomingRequest Sample.rt (Sample.plugin false) "request"
                          (Sample.request0 None) Sample.response0
                          (Sample.world Sample.tracer1 (Sample.options0 None))).2)
       = [Sample.root0; root].
Proof.
  destruct (incomingRequest_root_span Sample.rt (Sample.plugin false)
              (Sample.request0 None) Sample.response0 "/incoming/rootSpan/"
              {| u_protocol := Null; u_host := Null; u_hostname := Null;
                 u_pathname := Str "/incoming/rootSpan/";
                 u_path := Str "/incoming/rootSpan/" |}
              (Sample.world Sample.tracer1 (Sample.options0 None))
              (with_log [EvalPattern 0]
                 (Sample.world Sample.tracer1 (Sample.options0 None))))
    as (root & _ & _ & Hparent & _ & _ & Hstarted & _).
  - reflexivity.
  - reflexivity.
  - reflexivity.
  - vm_compute. reflexivity.
  - exists root. split; [exact Hparent|exact Hstarted].
Defined.

Lemma wrappedEnd_finishes_witness :
  ends 7 (log (wrappedEnd Sample.rt (Sample.request0 None) Sample.response0
                 Sample.root0
                 (Sample.world Sample.tracer1 (Sample.options0 None))).2)
  = 1%nat.
Proof.
  destruct (wrappedEnd_finishes Sample.rt (Sample.request0 None)
              Sample.response0 Sample.root0
              {| u_protocol := Null; u_host := Null; u_hostname := Null;
                 u_pathname := Str "/incoming/rootSpan/";
                 u_path := Str "/incoming/rootSpan/" |}
              (Sample.world Sample.tracer1 (Sample.options0 None)))
    as (new & Hrun & _ & _ & _ & Hends & _).
  - reflexivity.
  - rewrite Hrun. cbn [snd log]. rewrite ends_app. exact Hends.
Defined.

Lemma wrappedEnd_parse_error_witness :
  (wrappedEnd Sample.rt Fixture.malformed_request Sample.response0 Sample.root0
     (Sample.world Sample.tracer1 (Sample.options0 None))).1 = Throw Raised
  /\ ends 7 (log (wrappedEnd Sample.rt Fixture.malformed_request
                    Sample.response0 Sample.root0
                    (Sample.world Sample.tracer1 (Sample.options0 None))).2)
     = 0%nat.
Proof.
  destruct (wrappedEnd_parse_error Sample.rt Fixture.malformed_request
              Sample.response0 Sample.root0
              (Sample.world Sample.tracer1 (Sample.options0 None)))
    as [Hrun Hends].
  - reflexivity.
  - split; [by rewrite Hrun|exact Hends].
Defined.

Lemma onEnd_attributes_witness :
  exists new,
    log (onEnd Sample.rt Sample.not_found Fixture.get_span 0%nat
           (Sample.world Sample.tracer0 (Sample.options0 None))).2 = new
    /\ attribute_writes 0 ATTRIBUTE_HTTP_ROUTE new = [Str "/test"]
    /\ attribute_writes 0 ATTRIBUTE_HTTP_HOST new = [Str "fake.service.io"]
    /\ statuses 0 new = [5].
Proof.
  destruct (onEnd_attributes Sample.rt Sample.not_found Fixture.get_span 0%nat
              (Sample.options0 None) (Str "fake.service.io") (Str "/test")
              (Sample.world Sample.tracer0 (Sample.options0 None)))
    as (new & _ & Hlog & _ & Hroute & _ & _ & Hhost & Hstatus).
  - vm_compute. reflexivity.
  - reflexivity.
  - reflexivity.
  - exists new. split; [exact Hlog|]. split; [exact Hroute|].
    split; [exact Hhost|exact Hstatus].
Defined.

Lemma outgoing_predicate_sees_witness :
  started (tracer (outgoingRequest Sample.rt
                     (Fixture.plugin_with [PFunction Fixture.is_test_url])
                     (ArgObject 0%nat)
                     (Sample.world Sample.tracer0 (Sample.options0 None))).2)
  = [].
Proof.
  apply (outgoing_predicate_sees Sample.rt
           (Fixture.plugin_with [PFunction Fixture.is_test_url]) 0%nat
           (Sample.options0 None) Undef "/test"
           {| u_protocol := Null; u_host := Null; u_hostname := Null;
              u_pathname := Str "/test"; u_path := Str "/test" |}
           Undef Undef (Str "fake.service.io") Fixture.is_test_url
           (Sample.world Sample.tracer0 (Sample.options0 None)));
    reflexivity.
Defined.

Lemma span_status_of_last_signal_witness :
  statuses 0
    (log (deliver Sample.rt
            [EmitResponse 0%nat Sample.not_found; EmitEnd 9;
             EmitRequestError 0%nat Sample.reset]
            (outgoingRequest Sample.rt (Sample.plugin false) (ArgObject 0%nat)
               (Sample.world Sample.tracer0 (Sample.options0 None))).2).2)
  = [5; 2].
Proof.
  pose proof (span_status_of_last_signal Sample.rt 0%nat Sample.http_get 0%nat
                (Sample.options0 None) Sample.not_found
                [EmitEnd 9; EmitRequestError 0%nat Sample.reset]
                (outgoingRequest Sample.rt (Sample.plugin false)
                   (ArgObject 0%nat)
                   (Sample.world Sample.tracer0 (Sample.options0 None))).2)
    as Hlast.
  etransitivity; [apply Hlast|].
  - vm_compute. reflexivity.
  - vm_compute. reflexivity.
  - reflexivity.
  - reflexivity.
  - reflexivity.
  - vm_compute. reflexivity.
Defined.

Lemma outgoing_predicate_sees_string_witness :
  started (tracer (outgoingRequest Sample.rt
                     (Fixture.plugin_with
                        [PFunction (fun url _ =>
                                      match url with
                                      | Str u => String.eqb u "http://null/test"
                                      | _ => false
                                      end)])
                     (ArgString "/test")
                     (Sample.world Sample.tracer0 (Sample.options0 None))).2)
  = [].
Proof.
  apply (outgoing_predicate_sees_string Sample.rt
           (Fixture.plugin_with
              [PFunction (fun url _ =>
                            match url with
                            | Str u => String.eqb u "http://null/test"
                            | _ => false
                            end)])
           "/test"
           {| u_protocol := Null; u_host := Null; u_hostname := Null;
              u_pathname := Str "/test"; u_path := Str "/test" |}
           (fun url _ =>
              match url with
              | Str u => String.eqb u "http://null/test"
              | _ => false
              end)
           (Sample.world Sample.tracer0 (Sample.options0 None)));
    [reflexivity|discriminate|reflexivity|reflexivity].
Defined.

Lemma outgoingRequest_string_parse_error_witness :
  outgoingRequest Sample.rt (Sample.plugin false) (ArgString "%")
    (Sample.world Sample.tracer0 (Sample.options0 None))
  = (Throw Raised, Sample.world Sample.tracer0 (Sample.options0 None)).
Proof.
  apply (outgoingRequest_string_parse_error Sample.rt (Sample.plugin false) "%");
    [discriminate|reflexivity].
Defined.

Lemma outgoingRequest_expect_sets_no_header_witness :
  hasExpectHeader (Sample.options0 (Some Sample.expect)) = true
  /\ started (tracer
                (outgoingRequest Sample.rt (Sample.plugin false) (ArgObject 0%nat)
                   (Sample.world Fixture.tracer_b3
                      (Sample.options0 (Some Sample.expect)))).2)
     = [Sample.http_get]
  /\ live_headers
       (log (outgoingRequest Sample.rt (Sample.plugin false) (ArgObject 0%nat)
               (Sample.world Fixture.tracer_b3
                  (Sample.options0 (Some Sample.expect)))).2)
     = [].
Proof.
  split; [vm_compute; reflexivity|]. split; [vm_compute; reflexivity|].
  pose proof (outgoingRequest_expect_sets_no_header Sample.rt
                (Sample.plugin false) 0%nat
                (Sample.options0 (Some Sample.expect))
                (Sample.world Fixture.tracer_b3
                   (Sample.options0 (Some Sample.expect)))) as Hlive.
  etransitivity; [apply Hlive|reflexivity].
  - vm_compute. reflexivity.
  - vm_compute. reflexivity.
  - intros format context [= <-]. cbn [prop_inject Fixture.b3].
    repeat constructor; intros Hname; discriminate Hname.
Defined.
